(** * DCOLock: the sale and vesting ledger

    A shallow embedding of the Solidity contract [DCOLock] (the token sale
    with tiered pricing and a two-tranche release schedule) and the
    properties of its accounting.

    Storage is a record, [uint256] values are integers in [Z] with the
    checked arithmetic of Solidity 0.8 written out (an overflow, an
    underflow or a division by zero is a [Panic]), the mapping
    [userLockedTokens] is a finite map read with a zero default, and every
    function is a computation in a state-and-failure monad.  A failing
    computation returns the storage as it was at the point of failure
    ([exec]); the transaction around it discards those writes ([call]).

    The token is passive (it does not call back), so the [nonReentrant]
    guard never fires and is left out: the flag it sets before the body of
    [releaseZKTC], [DonateToZCW], [withdraw], [withdrawParticularZKTC] and
    [withdrawAllZKTC], and clears after it, is not part of [State].  What
    these five return and what they leave behind does not depend on it;
    what had been written when a check inside one of their bodies fires
    does, and no statement is made on that.  The entry points inherited from
    the OpenZeppelin bases (transfer of ownership, renouncing a role,
    upgrade of the implementation) are library code and are not part of
    the interface modelled here; [DEFAULT_ADMIN_ROLE] is granted to
    nobody, so roles change only through the functions below. *)

From Stdlib Require Import ZArith Lia List.
From stdpp Require Import gmap strings.

Open Scope Z_scope.

(** ** Values *)

(** An address is a 160-bit number; [address(0)] is [0]. *)
Abbreviation address := Z (only parsing).

Definition MAX_UINT256 : Z := 2 ^ 256 - 1.

(** [10 ** 18], the token's decimal scaling. *)
Definition SCALE : Z := 10 ^ 18.

Definition days : Z := 86400.

Inductive Role := WALLET_SUPPLIER_ROLE | RELEASER_ROLE.

(** [struct LockedTokens] *)
Record LockedTokens := mkLockedTokens {
  totalAmount : Z;
  sevenMonthAmount : Z;
  oneYearAmount : Z;
  sevenMonthClaimed : Z;
  oneYearClaimed : Z;
  lockTimestamp : Z
}.

(** A key that was never written reads as the all-zero struct. *)
#[global] Instance LockedTokens_inhabited : Inhabited LockedTokens :=
  populate (mkLockedTokens 0 0 0 0 0 0).

#[global] Instance uint_inhabited : Inhabited Z := populate 0.

Definition set_totalAmount (v : Z) (l : LockedTokens) : LockedTokens :=
  mkLockedTokens v (sevenMonthAmount l) (oneYearAmount l) (sevenMonthClaimed l)
    (oneYearClaimed l) (lockTimestamp l).
Definition set_sevenMonthAmount (v : Z) (l : LockedTokens) : LockedTokens :=
  mkLockedTokens (totalAmount l) v (oneYearAmount l) (sevenMonthClaimed l)
    (oneYearClaimed l) (lockTimestamp l).
Definition set_oneYearAmount (v : Z) (l : LockedTokens) : LockedTokens :=
  mkLockedTokens (totalAmount l) (sevenMonthAmount l) v (sevenMonthClaimed l)
    (oneYearClaimed l) (lockTimestamp l).
Definition set_sevenMonthClaimed (v : Z) (l : LockedTokens) : LockedTokens :=
  mkLockedTokens (totalAmount l) (sevenMonthAmount l) (oneYearAmount l) v
    (oneYearClaimed l) (lockTimestamp l).
Definition set_oneYearClaimed (v : Z) (l : LockedTokens) : LockedTokens :=
  mkLockedTokens (totalAmount l) (sevenMonthAmount l) (oneYearAmount l)
    (sevenMonthClaimed l) v (lockTimestamp l).
Definition set_lockTimestamp (v : Z) (l : LockedTokens) : LockedTokens :=
  mkLockedTokens (totalAmount l) (sevenMonthAmount l) (oneYearAmount l)
    (sevenMonthClaimed l) (oneYearClaimed l) v.

(** The custom errors of the contract, followed by the failures that come
    from the compiler and the inherited guards. *)
Inductive Error :=
| TokenPriceMustBeGreaterThanZero
| AmountMustBeGreaterThanZero
| NoTokensRemaining
| InsufficientBalance
| NoBalanceToWithdraw
| TransferFailed
| InsufficientTokens
| TransactionAlreadyProcessed
| GlobalReleaseTimeNotReached
| CannotWithdrawBeforeGlobalRelease
| DCONotActive
| InvalidAddress
| NoDonationsMade
| NoTokensToWithdraw
| SevenMonthReleaseNotAvailable
| OneYearReleaseNotAvailable
| InvalidTokenPrice
| InvalidTokenAddress
| InvalidZCWAddress
| InvalidDCOEndTime
| InvalidThreshold
| InvalidIncrementThreshold
| InvalidWalletAddress
| InvalidAmount
| InvalidTimeStamp
| OverflowDetected
| UnderflowDetected
| RequireFailed (reason : string)
| Panic (code : Z)
| OwnableUnauthorizedAccount (account : address)
| AccessControlUnauthorizedAccount (account : address) (role : Role)
| InvalidInitialization
| TokenCallFailed
| OutOfGas.

(** Panic codes of Solidity 0.8. *)
Definition ARITHMETIC : Z := 17.
Definition DIVISION_BY_ZERO : Z := 18.

(** The events the contract emits, and the two that the inherited access
    control logs when it changes a role.  ([OwnershipTransferred] and
    [Initialized], which the inherited initialisers log once during
    [initialize], are not kept.)  Solidity overloads [TokensWithdrawn];
    the three-argument form is [TokensWithdrawnStage] here. *)
Inductive Event :=
| RoleGranted (role : Role) (account sender : address)
| RoleRevoked (role : Role) (account sender : address)
| TokenPriceUpdated (oldPrice newPrice : Z)
| TokensInjected (amount newRemaining : Z)
| ReleaserAdded (releaser : address)
| ReleaserRemoved (releaser : address)
| TokensReleased (buyer : address) (amount timestamp : Z)
| DCOEndTimeUpdated (oldTime newTime : Z)
| TokensWithdrawn (to : address) (amount : Z)
| AllTokensWithdrawn (to : address) (amount : Z)
| DonationMade (buyer : address) (amount timestamp : Z)
| ZCWDonated (amount timestamp : Z)
| PriceThresholdUpdated (newThreshold price : Z)
| TokensLocked (user : address) (amount timestamp : Z)
| TokensWithdrawnStage (user : address) (amount releaseType : Z)
| TimePeriodsSet (sevenMonthsTime oneYearTime : Z).

(** ** Storage *)

(** The storage of the proxy, the role members kept by the inherited
    access control, and the two parts of the world the contract talks to:
    the token ledger and the event log (most recent event first).

    Modelled from the spec: the token behind [zkToken] (IERC20 used
    through SafeERC20, library code outside this repository) is the
    transfer capability of the specification, [balanceOf], a transfer out
    that fails when the holder has too little, and a transfer in that also
    needs an allowance.  [zkBalances] is the token's balance per holder,
    [zkAllowance] what each holder allows this contract to pull, and [self]
    is [address(this)]. *)
Record State := mkState {
  initialized : bool;
  owner : address;
  releasers : gset address;
  walletSuppliers : gset address;
  zkToken : address;
  tokenPrice : Z;
  tokenSold : Z;
  DCO_END_TIME : Z;
  SEVEN_MONTHS : Z;
  ONE_YEAR : Z;
  totalDonations : Z;
  totalUsdGathered : Z;
  incrementThreshold : Z;
  threshold : Z;
  btcAddress : string;
  ethAddress : address;
  solAddress : string;
  ZCW : address;
  userLockedTokens : gmap address LockedTokens;
  self : address;
  zkBalances : gmap address Z;
  zkAllowance : gmap address Z;
  events : list Event
}.

Definition set_initialized (v : bool) (s : State) : State :=
  mkState v (owner s) (releasers s) (walletSuppliers s) (zkToken s) (tokenPrice s)
    (tokenSold s) (DCO_END_TIME s) (SEVEN_MONTHS s) (ONE_YEAR s) (totalDonations s)
    (totalUsdGathered s) (incrementThreshold s) (threshold s) (btcAddress s) (ethAddress s)
    (solAddress s) (ZCW s) (userLockedTokens s) (self s) (zkBalances s) (zkAllowance s)
    (events s).
Definition set_owner (v : address) (s : State) : State :=
  mkState (initialized s) v (releasers s) (walletSuppliers s) (zkToken s) (tokenPrice s)
    (tokenSold s) (DCO_END_TIME s) (SEVEN_MONTHS s) (ONE_YEAR s) (totalDonations s)
    (totalUsdGathered s) (incrementThreshold s) (threshold s) (btcAddress s) (ethAddress s)
    (solAddress s) (ZCW s) (userLockedTokens s) (self s) (zkBalances s) (zkAllowance s)
    (events s).
Definition set_releasers (v : gset address) (s : State) : State :=
  mkState (initialized s) (owner s) v (walletSuppliers s) (zkToken s) (tokenPrice s)
    (tokenSold s) (DCO_END_TIME s) (SEVEN_MONTHS s) (ONE_YEAR s) (totalDonations s)
    (totalUsdGathered s) (incrementThreshold s) (threshold s) (btcAddress s) (ethAddress s)
    (solAddress s) (ZCW s) (userLockedTokens s) (self s) (zkBalances s) (zkAllowance s)
    (events s).
Definition set_walletSuppliers (v : gset address) (s : State) : State :=
  mkState (initialized s) (owner s) (releasers s) v (zkToken s) (tokenPrice s)
    (tokenSold s) (DCO_END_TIME s) (SEVEN_MONTHS s) (ONE_YEAR s) (totalDonations s)
    (totalUsdGathered s) (incrementThreshold s) (threshold s) (btcAddress s) (ethAddress s)
    (solAddress s) (ZCW s) (userLockedTokens s) (self s) (zkBalances s) (zkAllowance s)
    (events s).
Definition set_zkToken (v : address) (s : State) : State :=
  mkState (initialized s) (owner s) (releasers s) (walletSuppliers s) v (tokenPrice s)
    (tokenSold s) (DCO_END_TIME s) (SEVEN_MONTHS s) (ONE_YEAR s) (totalDonations s)
    (totalUsdGathered s) (incrementThreshold s) (threshold s) (btcAddress s) (ethAddress s)
    (solAddress s) (ZCW s) (userLockedTokens s) (self s) (zkBalances s) (zkAllowance s)
    (events s).
Definition set_tokenPrice (v : Z) (s : State) : State :=
  mkState (initialized s) (owner s) (releasers s) (walletSuppliers s) (zkToken s) v
    (tokenSold s) (DCO_END_TIME s) (SEVEN_MONTHS s) (ONE_YEAR s) (totalDonations s)
    (totalUsdGathered s) (incrementThreshold s) (threshold s) (btcAddress s) (ethAddress s)
    (solAddress s) (ZCW s) (userLockedTokens s) (self s) (zkBalances s) (zkAllowance s)
    (events s).
Definition set_tokenSold (v : Z) (s : State) : State :=
  mkState (initialized s) (owner s) (releasers s) (walletSuppliers s) (zkToken s)
    (tokenPrice s) v (DCO_END_TIME s) (SEVEN_MONTHS s) (ONE_YEAR s) (totalDonations s)
    (totalUsdGathered s) (incrementThreshold s) (threshold s) (btcAddress s) (ethAddress s)
    (solAddress s) (ZCW s) (userLockedTokens s) (self s) (zkBalances s) (zkAllowance s)
    (events s).
Definition set_DCO_END_TIME (v : Z) (s : State) : State :=
  mkState (initialized s) (owner s) (releasers s) (walletSuppliers s) (zkToken s)
    (tokenPrice s) (tokenSold s) v (SEVEN_MONTHS s) (ONE_YEAR s) (totalDonations s)
    (totalUsdGathered s) (incrementThreshold s) (threshold s) (btcAddress s) (ethAddress s)
    (solAddress s) (ZCW s) (userLockedTokens s) (self s) (zkBalances s) (zkAllowance s)
    (events s).
Definition set_SEVEN_MONTHS (v : Z) (s : State) : State :=
  mkState (initialized s) (owner s) (releasers s) (walletSuppliers s) (zkToken s)
    (tokenPrice s) (tokenSold s) (DCO_END_TIME s) v (ONE_YEAR s) (totalDonations s)
    (totalUsdGathered s) (incrementThreshold s) (threshold s) (btcAddress s) (ethAddress s)
    (solAddress s) (ZCW s) (userLockedTokens s) (self s) (zkBalances s) (zkAllowance s)
    (events s).
Definition set_ONE_YEAR (v : Z) (s : State) : State :=
  mkState (initialized s) (owner s) (releasers s) (walletSuppliers s) (zkToken s)
    (tokenPrice s) (tokenSold s) (DCO_END_TIME s) (SEVEN_MONTHS s) v (totalDonations s)
    (totalUsdGathered s) (incrementThreshold s) (threshold s) (btcAddress s) (ethAddress s)
    (solAddress s) (ZCW s) (userLockedTokens s) (self s) (zkBalances s) (zkAllowance s)
    (events s).
Definition set_totalDonations (v : Z) (s : State) : State :=
  mkState (initialized s) (owner s) (releasers s) (walletSuppliers s) (zkToken s)
    (tokenPrice s) (tokenSold s) (DCO_END_TIME s) (SEVEN_MONTHS s) (ONE_YEAR s) v
    (totalUsdGathered s) (incrementThreshold s) (threshold s) (btcAddress s) (ethAddress s)
    (solAddress s) (ZCW s) (userLockedTokens s) (self s) (zkBalances s) (zkAllowance s)
    (events s).
Definition set_totalUsdGathered (v : Z) (s : State) : State :=
  mkState (initialized s) (owner s) (releasers s) (walletSuppliers s) (zkToken s)
    (tokenPrice s) (tokenSold s) (DCO_END_TIME s) (SEVEN_MONTHS s) (ONE_YEAR s)
    (totalDonations s) v (incrementThreshold s) (threshold s) (btcAddress s) (ethAddress s)
    (solAddress s) (ZCW s) (userLockedTokens s) (self s) (zkBalances s) (zkAllowance s)
    (events s).
Definition set_incrementThreshold (v : Z) (s : State) : State :=
  mkState (initialized s) (owner s) (releasers s) (walletSuppliers s) (zkToken s)
    (tokenPrice s) (tokenSold s) (DCO_END_TIME s) (SEVEN_MONTHS s) (ONE_YEAR s)
    (totalDonations s) (totalUsdGathered s) v (threshold s) (btcAddress s) (ethAddress s)
    (solAddress s) (ZCW s) (userLockedTokens s) (self s) (zkBalances s) (zkAllowance s)
    (events s).
Definition set_threshold (v : Z) (s : State) : State :=
  mkState (initialized s) (owner s) (releasers s) (walletSuppliers s) (zkToken s)
    (tokenPrice s) (tokenSold s) (DCO_END_TIME s) (SEVEN_MONTHS s) (ONE_YEAR s)
    (totalDonations s) (totalUsdGathered s) (incrementThreshold s) v (btcAddress s)
    (ethAddress s) (solAddress s) (ZCW s) (userLockedTokens s) (self s) (zkBalances s)
    (zkAllowance s) (events s).
Definition set_btcAddress (v : string) (s : State) : State :=
  mkState (initialized s) (owner s) (releasers s) (walletSuppliers s) (zkToken s)
    (tokenPrice s) (tokenSold s) (DCO_END_TIME s) (SEVEN_MONTHS s) (ONE_YEAR s)
    (totalDonations s) (totalUsdGathered s) (incrementThreshold s) (threshold s) v
    (ethAddress s) (solAddress s) (ZCW s) (userLockedTokens s) (self s) (zkBalances s)
    (zkAllowance s) (events s).
Definition set_ethAddress (v : address) (s : State) : State :=
  mkState (initialized s) (owner s) (releasers s) (walletSuppliers s) (zkToken s)
    (tokenPrice s) (tokenSold s) (DCO_END_TIME s) (SEVEN_MONTHS s) (ONE_YEAR s)
    (totalDonations s) (totalUsdGathered s) (incrementThreshold s) (threshold s)
    (btcAddress s) v (solAddress s) (ZCW s) (userLockedTokens s) (self s) (zkBalances s)
    (zkAllowance s) (events s).
Definition set_solAddress (v : string) (s : State) : State :=
  mkState (initialized s) (owner s) (releasers s) (walletSuppliers s) (zkToken s)
    (tokenPrice s) (tokenSold s) (DCO_END_TIME s) (SEVEN_MONTHS s) (ONE_YEAR s)
    (totalDonations s) (totalUsdGathered s) (incrementThreshold s) (threshold s)
    (btcAddress s) (ethAddress s) v (ZCW s) (userLockedTokens s) (self s) (zkBalances s)
    (zkAllowance s) (events s).
Definition set_ZCW (v : address) (s : State) : State :=
  mkState (initialized s) (owner s) (releasers s) (walletSuppliers s) (zkToken s)
    (tokenPrice s) (tokenSold s) (DCO_END_TIME s) (SEVEN_MONTHS s) (ONE_YEAR s)
    (totalDonations s) (totalUsdGathered s) (incrementThreshold s) (threshold s)
    (btcAddress s) (ethAddress s) (solAddress s) v (userLockedTokens s) (self s)
    (zkBalances s) (zkAllowance s) (events s).
Definition set_userLockedTokens (v : gmap address LockedTokens) (s : State) : State :=
  mkState (initialized s) (owner s) (releasers s) (walletSuppliers s) (zkToken s)
    (tokenPrice s) (tokenSold s) (DCO_END_TIME s) (SEVEN_MONTHS s) (ONE_YEAR s)
    (totalDonations s) (totalUsdGathered s) (incrementThreshold s) (threshold s)
    (btcAddress s) (ethAddress s) (solAddress s) (ZCW s) v (self s) (zkBalances s)
    (zkAllowance s) (events s).
Definition set_zkBalances (v : gmap address Z) (s : State) : State :=
  mkState (initialized s) (owner s) (releasers s) (walletSuppliers s) (zkToken s)
    (tokenPrice s) (tokenSold s) (DCO_END_TIME s) (SEVEN_MONTHS s) (ONE_YEAR s)
    (totalDonations s) (totalUsdGathered s) (incrementThreshold s) (threshold s)
    (btcAddress s) (ethAddress s) (solAddress s) (ZCW s) (userLockedTokens s) (self s) v
    (zkAllowance s) (events s).
Definition set_zkAllowance (v : gmap address Z) (s : State) : State :=
  mkState (initialized s) (owner s) (releasers s) (walletSuppliers s) (zkToken s)
    (tokenPrice s) (tokenSold s) (DCO_END_TIME s) (SEVEN_MONTHS s) (ONE_YEAR s)
    (totalDonations s) (totalUsdGathered s) (incrementThreshold s) (threshold s)
    (btcAddress s) (ethAddress s) (solAddress s) (ZCW s) (userLockedTokens s) (self s)
    (zkBalances s) v (events s).
Definition set_events (v : list Event) (s : State) : State :=
  mkState (initialized s) (owner s) (releasers s) (walletSuppliers s) (zkToken s)
    (tokenPrice s) (tokenSold s) (DCO_END_TIME s) (SEVEN_MONTHS s) (ONE_YEAR s)
    (totalDonations s) (totalUsdGathered s) (incrementThreshold s) (threshold s)
    (btcAddress s) (ethAddress s) (solAddress s) (ZCW s) (userLockedTokens s) (self s)
    (zkBalances s) (zkAllowance s) v.

(** What a call sees of its transaction: the caller, the block time, and
    how many iterations of the repricing loop its gas pays for. *)
Record Env := mkEnv {
  msg_sender : address;
  block_timestamp : Z;
  gas : nat
}.

(** ** The monad of contract code *)

Inductive outcome (A : Type) :=
| Ok (a : A)
| Revert (e : Error).
Arguments Ok {A} a.
Arguments Revert {A} e.

Definition M (A : Type) : Type := State -> outcome A * State.

Definition ret {A} (a : A) : M A := fun s => (Ok a, s).

Definition bind {A B} (m : M A) (k : A -> M B) : M B :=
  fun s =>
    match m s with
    | (Ok a, s') => k a s'
    | (Revert e, s') => (Revert e, s')
    end.

Notation "x <- c1 ;; c2" := (bind c1 (fun x => c2))
  (at level 100, c1 at next level, right associativity).
Notation "c1 ;; c2" := (bind c1 (fun _ => c2))
  (at level 100, right associativity).

Definition revert {A} (e : Error) : M A := fun s => (Revert e, s).
Definition gets {A} (f : State -> A) : M A := fun s => (Ok (f s), s).
Definition modify (f : State -> State) : M unit := fun s => (Ok tt, f s).
Definition emit (e : Event) : M unit := modify (fun s => set_events (e :: events s) s).

(** [if (c) revert E();] *)
Definition revert_if (P : Prop) `{Decision P} (e : Error) : M unit :=
  if decide P then revert e else ret tt.

(** [require(c, reason);] *)
Definition require (P : Prop) `{Decision P} (reason : string) : M unit :=
  if decide P then ret tt else revert (RequireFailed reason).

(** Checked [uint256] arithmetic. *)
Definition add (a b : Z) : M Z :=
  if decide (a + b <= MAX_UINT256) then ret (a + b) else revert (Panic ARITHMETIC).
Definition sub (a b : Z) : M Z :=
  if decide (b <= a) then ret (a - b) else revert (Panic ARITHMETIC).
Definition mul (a b : Z) : M Z :=
  if decide (a * b <= MAX_UINT256) then ret (a * b) else revert (Panic ARITHMETIC).
Definition div (a b : Z) : M Z :=
  if decide (b = 0) then revert (Panic DIVISION_BY_ZERO) else ret (a / b).

(** [x += v;] on a storage variable. *)
Definition add_assign (get : State -> Z) (set : Z -> State -> State) (v : Z) : M unit :=
  x <- gets get ;; y <- add x v ;; modify (set y).
Definition sub_assign (get : State -> Z) (set : Z -> State -> State) (v : Z) : M unit :=
  x <- gets get ;; y <- sub x v ;; modify (set y).

(** [userLockedTokens[user]] read and written through a storage pointer. *)
Definition lockOf (s : State) (user : address) : LockedTokens :=
  userLockedTokens s !!! user.
Definition read_lock (user : address) : M LockedTokens :=
  gets (fun s => lockOf s user).
Definition write_lock (user : address) (f : LockedTokens -> LockedTokens) : M unit :=
  modify (fun s => set_userLockedTokens (<[user := f (lockOf s user)]> (userLockedTokens s)) s).

(** ** The token *)

Definition balanceOf (s : State) (a : address) : Z := zkBalances s !!! a.

(** [zkToken.balanceOf(address(this))] *)
Definition zkBalance : M Z := gets (fun s => balanceOf s (self s)).

Definition move_tokens (from to : address) (amount : Z) (s : State) : State :=
  let b := <[from := balanceOf s from - amount]> (zkBalances s) in
  set_zkBalances (<[to := b !!! to + amount]> b) s.

(** [zkToken.safeTransfer(to, amount)] *)
Definition safeTransfer (to : address) (amount : Z) : M unit :=
  me <- gets self ;;
  bal <- zkBalance ;;
  revert_if (bal < amount) TokenCallFailed ;;
  modify (move_tokens me to amount).

(** [zkToken.safeTransferFrom(from, address(this), amount)] *)
Definition safeTransferFrom (from : address) (amount : Z) : M unit :=
  me <- gets self ;;
  bal <- gets (fun s => balanceOf s from) ;;
  allowed <- gets (fun s => zkAllowance s !!! from) ;;
  revert_if (bal < amount) TokenCallFailed ;;
  revert_if (allowed < amount) TokenCallFailed ;;
  modify (fun s => set_zkAllowance (<[from := allowed - amount]> (zkAllowance s)) s) ;;
  modify (move_tokens from me amount).

(** [if (c) { body }] *)
Definition when (P : Prop) `{Decision P} (body : M unit) : M unit :=
  if decide P then body else ret tt.

(** ** Inherited guards: the owner and the two roles *)

Definition role_members (r : Role) (s : State) : gset address :=
  match r with
  | WALLET_SUPPLIER_ROLE => walletSuppliers s
  | RELEASER_ROLE => releasers s
  end.

Definition set_role_members (r : Role) (v : gset address) (s : State) : State :=
  match r with
  | WALLET_SUPPLIER_ROLE => set_walletSuppliers v s
  | RELEASER_ROLE => set_releasers v s
  end.

Definition onlyOwner (env : Env) : M unit :=
  o <- gets owner ;;
  revert_if (msg_sender env ≠ o) (OwnableUnauthorizedAccount (msg_sender env)).

Definition onlyRole (env : Env) (r : Role) : M unit :=
  members <- gets (role_members r) ;;
  revert_if (msg_sender env ∉ members) (AccessControlUnauthorizedAccount (msg_sender env) r).

(** [_grantRole] and [_revokeRole] of the access control: an account
    that does not hold the role is added and [RoleGranted] is logged with
    the sender of the transaction; one that holds it already is left as it
    is and nothing is logged.  Likewise for taking a role away. *)
Definition _grantRole (env : Env) (r : Role) (account : address) : M unit :=
  members <- gets (role_members r) ;;
  when (account ∉ members)
    (modify (fun s => set_role_members r ({[account]} ∪ role_members r s) s) ;;
     emit (RoleGranted r account (msg_sender env))).

Definition _revokeRole (env : Env) (r : Role) (account : address) : M unit :=
  members <- gets (role_members r) ;;
  when (account ∈ members)
    (modify (fun s => set_role_members r (role_members r s ∖ {[account]}) s) ;;
     emit (RoleRevoked r account (msg_sender env))).

(** The [initializer] modifier: the body runs once per proxy. *)
Definition initializer : M unit :=
  done_before <- gets initialized ;;
  revert_if (done_before = true) InvalidInitialization ;;
  modify (set_initialized true).

(** ** The contract *)

Definition initialize (env : Env) (initialOwner : address) (tokenPrice_ : Z)
    (zktcAddress zcwAddress : address) : M unit :=
  initializer ;;
  require (initialOwner ≠ 0) "Owner cannot be zero address" ;;
  require (tokenPrice_ > 0) "Token price must be greater than zero" ;;
  require (zktcAddress ≠ 0) "ZKTC address cannot be zero" ;;
  require (zcwAddress ≠ 0) "ZCW address cannot be zero" ;;
  modify (set_owner initialOwner) ;;
  modify (set_tokenPrice tokenPrice_) ;;
  modify (set_zkToken zktcAddress) ;;
  modify (set_ZCW zcwAddress) ;;
  modify (set_incrementThreshold 37500) ;;
  modify (set_threshold 137500) ;;
  _grantRole env RELEASER_ROLE initialOwner ;;
  _grantRole env WALLET_SUPPLIER_ROLE initialOwner ;;
  t1 <- add (block_timestamp env) (101 * days) ;;
  modify (set_DCO_END_TIME t1) ;;
  t2 <- add (block_timestamp env) (187 * days) ;;
  modify (set_SEVEN_MONTHS t2) ;;
  t3 <- add (block_timestamp env) (342 * days) ;;
  modify (set_ONE_YEAR t3).

Definition setWalletSupplier (env : Env) (walletSupplier : address) : M unit :=
  onlyOwner env ;;
  revert_if (walletSupplier = 0) InvalidAddress ;;
  _grantRole env WALLET_SUPPLIER_ROLE walletSupplier.

Definition setWalletAddresses (env : Env) (btcAddress_ : string) (ethAddress_ : address)
    (solAddress_ : string) : M unit :=
  onlyRole env WALLET_SUPPLIER_ROLE ;;
  revert_if (ethAddress_ = 0) InvalidWalletAddress ;;
  revert_if (String.length btcAddress_ = 0%nat) InvalidWalletAddress ;;
  revert_if (String.length solAddress_ = 0%nat) InvalidWalletAddress ;;
  modify (set_btcAddress btcAddress_) ;;
  modify (set_ethAddress ethAddress_) ;;
  modify (set_solAddress solAddress_).

Definition setTokenPrice (env : Env) (newTokenPrice : Z) : M unit :=
  onlyRole env RELEASER_ROLE ;;
  revert_if (newTokenPrice = 0) TokenPriceMustBeGreaterThanZero ;;
  oldPrice <- gets tokenPrice ;;
  modify (set_tokenPrice newTokenPrice) ;;
  emit (TokenPriceUpdated oldPrice newTokenPrice).

(** The event reads [DCO_END_TIME] after the assignment. *)
Definition setDCOEndTime (env : Env) (newDCOEndTime : Z) : M unit :=
  onlyOwner env ;;
  modify (set_DCO_END_TIME newDCOEndTime) ;;
  t <- gets DCO_END_TIME ;;
  emit (DCOEndTimeUpdated t newDCOEndTime).

Definition injectSupply (env : Env) (amount : Z) : M unit :=
  onlyOwner env ;;
  revert_if (amount = 0) AmountMustBeGreaterThanZero ;;
  safeTransferFrom (msg_sender env) amount ;;
  bal <- zkBalance ;;
  emit (TokensInjected amount bal).

Definition addReleaser (env : Env) (releaser : address) : M unit :=
  onlyOwner env ;;
  _grantRole env RELEASER_ROLE releaser ;;
  emit (ReleaserAdded releaser).

Definition removeReleaser (env : Env) (releaser : address) : M unit :=
  onlyOwner env ;;
  _revokeRole env RELEASER_ROLE releaser ;;
  emit (ReleaserRemoved releaser).

Definition getTokenPrice : M Z := gets tokenPrice.

Definition getTokenSold : M Z := gets tokenSold.

Definition getTotalLockedTokens : M Z := gets tokenSold.

Definition getAvailableForWithdrawal : M Z :=
  totalLocked <- getTotalLockedTokens ;;
  bal <- zkBalance ;;
  donations <- gets totalDonations ;;
  x <- sub bal donations ;;
  sub x totalLocked.

Definition getTokenRemaining : M Z := getAvailableForWithdrawal.

Definition getTotalDonations : M Z := gets totalDonations.

Definition getQuote (usdtAmount donationAmount : Z) : M (Z * Z) :=
  if decide (usdtAmount = 0 ∧ donationAmount = 0) then ret (0, 0) else
  price <- gets tokenPrice ;;
  revert_if (price = 0) InvalidTokenPrice ;;
  a <- mul usdtAmount SCALE ;;
  tokensToReceive <- div a price ;;
  d <- mul donationAmount SCALE ;;
  donatedTokens <- div d price ;;
  if decide (usdtAmount = 0) then ret (0, donatedTokens) else
  bal <- zkBalance ;;
  donations <- gets totalDonations ;;
  availableTokens <- sub bal donations ;;
  if decide (availableTokens = 0) then ret (0, donatedTokens) else
  total <- add tokensToReceive donatedTokens ;;
  if decide (total > availableTokens) then
    clamped <- sub availableTokens donatedTokens ;;
    ret (clamped, donatedTokens)
  else ret (tokensToReceive, donatedTokens).

(** [_lockTokensForUser]: the lock-merge. *)
Definition _lockTokensForUser (env : Env) (user : address) (amount : Z) : M unit :=
  revert_if (user = 0) InvalidAddress ;;
  revert_if (amount = 0) AmountMustBeGreaterThanZero ;;
  userLock <- read_lock user ;;
  (if decide (totalAmount userLock > 0) then
     room <- sub MAX_UINT256 amount ;;
     revert_if (totalAmount userLock > room) OverflowDetected ;;
     total <- add (totalAmount userLock) amount ;;
     write_lock user (set_totalAmount total) ;;
     let halfAmount := amount / 2 in
     room7 <- sub MAX_UINT256 halfAmount ;;
     revert_if (sevenMonthAmount userLock > room7) OverflowDetected ;;
     seven <- add (sevenMonthAmount userLock) halfAmount ;;
     write_lock user (set_sevenMonthAmount seven) ;;
     remainingAmount <- sub amount halfAmount ;;
     room1 <- sub MAX_UINT256 remainingAmount ;;
     revert_if (oneYearAmount userLock > room1) OverflowDetected ;;
     one <- add (oneYearAmount userLock) remainingAmount ;;
     write_lock user (set_oneYearAmount one)
   else
     write_lock user (set_totalAmount amount) ;;
     let halfAmount := amount / 2 in
     write_lock user (set_sevenMonthAmount halfAmount) ;;
     rest <- sub amount halfAmount ;;
     write_lock user (set_oneYearAmount rest) ;;
     write_lock user (set_lockTimestamp (block_timestamp env))) ;;
  emit (TokensLocked user amount (block_timestamp env)).

(** One of the three blocks [if (tokenPrice == price) { ... }] of the
    repricing loop: the step just added to [threshold] is taken back and
    the new, larger step is installed and added instead. *)
Definition checkpoint (price step : Z) : M unit :=
  p <- gets tokenPrice ;;
  when (p = price)
    (inc <- gets incrementThreshold ;;
     sub_assign threshold set_threshold inc ;;
     modify (set_incrementThreshold step) ;;
     inc' <- gets incrementThreshold ;;
     add_assign threshold set_threshold inc' ;;
     t <- gets threshold ;;
     p' <- gets tokenPrice ;;
     emit (PriceThresholdUpdated t p')).

(** The body of [while ((totalUsdGathered / 1000000) >= threshold)]. *)
Definition reprice_body : M unit :=
  add_assign tokenPrice set_tokenPrice 1000 ;;
  inc <- gets incrementThreshold ;;
  add_assign threshold set_threshold inc ;;
  t <- gets threshold ;;
  p <- gets tokenPrice ;;
  emit (PriceThresholdUpdated t p) ;;
  checkpoint 7000 325000 ;;
  checkpoint 8000 350000 ;;
  checkpoint 11000 400000.

(** The loop itself; [fuel] is the number of iterations the gas of the
    transaction pays for, and running out of it fails the call. *)
Fixpoint reprice_loop (fuel : nat) : M unit :=
  usd <- gets totalUsdGathered ;;
  t <- gets threshold ;;
  if decide (usd / 1000000 >= t) then
    match fuel with
    | O => revert OutOfGas
    | S fuel' => reprice_body ;; reprice_loop fuel'
    end
  else ret tt.

Definition releaseZKTC (env : Env) (amount : Z) (buyer : address) (donationAmount : Z)
    : M unit :=
  onlyRole env RELEASER_ROLE ;;
  dcoEnd <- gets DCO_END_TIME ;;
  revert_if (block_timestamp env > dcoEnd) DCONotActive ;;
  revert_if (amount = 0 ∧ donationAmount = 0) AmountMustBeGreaterThanZero ;;
  revert_if (buyer = 0) InvalidAddress ;;
  price <- gets tokenPrice ;;
  a <- mul amount SCALE ;;
  tokensToBuy <- div a price ;;
  d <- mul donationAmount SCALE ;;
  donation <- div d price ;;
  bal <- zkBalance ;;
  revert_if (bal = 0) NoTokensRemaining ;;
  available <- getAvailableForWithdrawal ;;
  wanted <- add tokensToBuy donation ;;
  revert_if (available < wanted) InsufficientTokens ;;
  sold <- add tokensToBuy donation ;;
  add_assign tokenSold set_tokenSold sold ;;
  usd <- add amount donationAmount ;;
  add_assign totalUsdGathered set_totalUsdGathered usd ;;
  reprice_loop (gas env) ;;
  when (tokensToBuy > 0)
    (_lockTokensForUser env buyer tokensToBuy ;;
     emit (TokensReleased buyer tokensToBuy (block_timestamp env))) ;;
  when (donation > 0)
    (add_assign totalDonations set_totalDonations donation ;;
     emit (DonationMade buyer donation (block_timestamp env))).

Definition updatePriceThresholds (env : Env) (incrementThreshold_ : Z) : M unit :=
  onlyRole env RELEASER_ROLE ;;
  revert_if (incrementThreshold_ = 0) InvalidIncrementThreshold ;;
  modify (set_incrementThreshold incrementThreshold_).

(** The event reads [totalDonations] after it was reset. *)
Definition DonateToZCW (env : Env) : M unit :=
  onlyRole env RELEASER_ROLE ;;
  donations <- gets totalDonations ;;
  revert_if (donations = 0) NoDonationsMade ;;
  zcw <- gets ZCW ;;
  safeTransfer zcw donations ;;
  modify (set_totalDonations 0) ;;
  reported <- gets totalDonations ;;
  emit (ZCWDonated reported (block_timestamp env)).

Definition UpdateAllocations (env : Env) (user : address) (amount : Z) : M unit :=
  onlyRole env RELEASER_ROLE ;;
  write_lock user (set_totalAmount 0) ;;
  scaled <- mul amount SCALE ;;
  _lockTokensForUser env user scaled.

Definition updateZCW (env : Env) (newZCW : address) : M unit :=
  onlyOwner env ;;
  revert_if (newZCW = 0) InvalidAddress ;;
  modify (set_ZCW newZCW).

Definition updateThreshold (env : Env) (_threshold : Z) : M unit :=
  onlyRole env RELEASER_ROLE ;;
  modify (set_threshold _threshold).

Definition updateUsdtGathered (env : Env) (newUsdtGathered : Z) : M unit :=
  onlyRole env RELEASER_ROLE ;;
  modify (set_totalUsdGathered newUsdtGathered).

(** One tranche of [withdraw]: when its mark has passed and something of
    it is unclaimed, the unclaimed part is added to the running total and
    the tranche is marked as claimed in full.  Returns the new total. *)
Definition claim_tranche (user : address) (currentTime mark : Z)
    (amountOf claimedOf : LockedTokens -> Z)
    (set_claimed : Z -> LockedTokens -> LockedTokens) (totalWithdrawable : Z) : M Z :=
  if decide (currentTime >= mark) then
    userLock <- read_lock user ;;
    available <- sub (amountOf userLock) (claimedOf userLock) ;;
    if decide (available > 0) then
      revert_if (claimedOf userLock > amountOf userLock) UnderflowDetected ;;
      total <- add totalWithdrawable available ;;
      write_lock user (set_claimed (amountOf userLock)) ;;
      ret total
    else ret totalWithdrawable
  else ret totalWithdrawable.

(** [withdraw]: the claim of a user. *)
Definition withdraw (env : Env) : M unit :=
  let user := msg_sender env in
  userLock <- read_lock user ;;
  revert_if (totalAmount userLock = 0) NoTokensToWithdraw ;;
  let currentTime := block_timestamp env in
  sevenMonths <- gets SEVEN_MONTHS ;;
  w1 <- claim_tranche user currentTime sevenMonths
          sevenMonthAmount sevenMonthClaimed set_sevenMonthClaimed 0 ;;
  oneYear <- gets ONE_YEAR ;;
  totalWithdrawable <- claim_tranche user currentTime oneYear
          oneYearAmount oneYearClaimed set_oneYearClaimed w1 ;;
  when (totalWithdrawable = 0)
    (if decide (currentTime < sevenMonths) then revert SevenMonthReleaseNotAvailable
     else if decide (currentTime < oneYear) then revert OneYearReleaseNotAvailable
     else ret tt) ;;
  bal <- zkBalance ;;
  revert_if (totalWithdrawable > bal) InsufficientBalance ;;
  safeTransfer user totalWithdrawable ;;
  userLock' <- read_lock user ;;
  stageTime <- add (lockTimestamp userLock') oneYear ;;
  emit (TokensWithdrawnStage user totalWithdrawable
          (if decide (currentTime >= stageTime) then 2 else 1)).

Definition getWithdrawableAmount (env : Env) (user : address) : M Z :=
  revert_if (user = 0) InvalidAddress ;;
  userLock <- read_lock user ;;
  if decide (totalAmount userLock = 0) then ret 0 else
  let currentTime := block_timestamp env in
  sevenMonths <- gets SEVEN_MONTHS ;;
  mark7 <- add (lockTimestamp userLock) sevenMonths ;;
  w1 <- (if decide (currentTime >= mark7) then
           revert_if (sevenMonthClaimed userLock > sevenMonthAmount userLock)
             UnderflowDetected ;;
           x <- sub (sevenMonthAmount userLock) (sevenMonthClaimed userLock) ;;
           add 0 x
         else ret 0) ;;
  oneYear <- gets ONE_YEAR ;;
  mark1 <- add (lockTimestamp userLock) oneYear ;;
  (if decide (currentTime >= mark1) then
     revert_if (oneYearClaimed userLock > oneYearAmount userLock) UnderflowDetected ;;
     x <- sub (oneYearAmount userLock) (oneYearClaimed userLock) ;;
     add w1 x
   else ret w1).

Definition getUserLockedTokens (user : address) : M LockedTokens :=
  revert_if (user = 0) InvalidAddress ;;
  read_lock user.

Definition getTimeUntilRelease (env : Env) (user : address) : M (Z * Z) :=
  revert_if (user = 0) InvalidAddress ;;
  userLock <- read_lock user ;;
  if decide (totalAmount userLock = 0) then ret (0, 0) else
  let currentTime := block_timestamp env in
  sevenMonths <- gets SEVEN_MONTHS ;;
  sevenMonthTime <- add (lockTimestamp userLock) sevenMonths ;;
  oneYear <- gets ONE_YEAR ;;
  oneYearTime <- add (lockTimestamp userLock) oneYear ;;
  timeUntilSevenMonth <-
    (if decide (currentTime > sevenMonthTime) then ret 0
     else sub sevenMonthTime currentTime) ;;
  timeUntilOneYear <-
    (if decide (currentTime > oneYearTime) then ret 0
     else sub oneYearTime currentTime) ;;
  ret (timeUntilSevenMonth, timeUntilOneYear).

Definition withdrawParticularZKTC (env : Env) (amount : Z) : M unit :=
  onlyOwner env ;;
  dcoEnd <- gets DCO_END_TIME ;;
  revert_if (block_timestamp env < dcoEnd) CannotWithdrawBeforeGlobalRelease ;;
  revert_if (amount = 0) AmountMustBeGreaterThanZero ;;
  revert_if (amount > MAX_UINT256 / 2) InvalidAmount ;;
  availableBalance <- getAvailableForWithdrawal ;;
  revert_if (amount > availableBalance) InsufficientBalance ;;
  bal <- zkBalance ;;
  revert_if (amount > bal) InsufficientBalance ;;
  safeTransfer (msg_sender env) amount ;;
  emit (TokensWithdrawn (msg_sender env) amount).

Definition withdrawAllZKTC (env : Env) : M unit :=
  onlyOwner env ;;
  dcoEnd <- gets DCO_END_TIME ;;
  revert_if (block_timestamp env < dcoEnd) CannotWithdrawBeforeGlobalRelease ;;
  availableBalance <- getAvailableForWithdrawal ;;
  revert_if (availableBalance = 0) NoBalanceToWithdraw ;;
  bal <- zkBalance ;;
  revert_if (availableBalance > bal) InsufficientBalance ;;
  safeTransfer (msg_sender env) availableBalance ;;
  emit (AllTokensWithdrawn (msg_sender env) availableBalance).

Definition setTimePeriods (env : Env) (sevenMonthsTime_ oneYearTime_ : Z) : M unit :=
  onlyRole env RELEASER_ROLE ;;
  modify (set_SEVEN_MONTHS sevenMonthsTime_) ;;
  modify (set_ONE_YEAR oneYearTime_) ;;
  emit (TimePeriodsSet sevenMonthsTime_ oneYearTime_).

Definition getTimePeriods : M (Z * Z) :=
  sevenMonthsTime <- gets SEVEN_MONTHS ;;
  oneYearTime <- gets ONE_YEAR ;;
  ret (sevenMonthsTime, oneYearTime).

(** ** Transactions *)

(** The state-changing entry points of the contract. *)
Inductive Call :=
| Initialize (initialOwner : address) (tokenPrice_ : Z) (zktcAddress zcwAddress : address)
| SetWalletSupplier (walletSupplier : address)
| SetWalletAddresses (btcAddress_ : string) (ethAddress_ : address) (solAddress_ : string)
| SetTokenPrice (newTokenPrice : Z)
| SetDCOEndTime (newDCOEndTime : Z)
| InjectSupply (amount : Z)
| AddReleaser (releaser : address)
| RemoveReleaser (releaser : address)
| ReleaseZKTC (amount : Z) (buyer : address) (donationAmount : Z)
| UpdatePriceThresholds (incrementThreshold_ : Z)
| DonateToZCW_
| UpdateAllocations_ (user : address) (amount : Z)
| UpdateZCW (newZCW : address)
| UpdateThreshold (_threshold : Z)
| UpdateUsdtGathered (newUsdtGathered : Z)
| Withdraw
| WithdrawParticularZKTC (amount : Z)
| WithdrawAllZKTC
| SetTimePeriods (sevenMonthsTime_ oneYearTime_ : Z).

(** The body of a call, run on the storage it finds.  On failure the
    second component is the storage at the point of failure. *)
Definition exec (env : Env) (c : Call) : M unit :=
  match c with
  | Initialize o p t z => initialize env o p t z
  | SetWalletSupplier a => setWalletSupplier env a
  | SetWalletAddresses b e so => setWalletAddresses env b e so
  | SetTokenPrice p => setTokenPrice env p
  | SetDCOEndTime t => setDCOEndTime env t
  | InjectSupply a => injectSupply env a
  | AddReleaser a => addReleaser env a
  | RemoveReleaser a => removeReleaser env a
  | ReleaseZKTC a b d => releaseZKTC env a b d
  | UpdatePriceThresholds v => updatePriceThresholds env v
  | DonateToZCW_ => DonateToZCW env
  | UpdateAllocations_ u a => UpdateAllocations env u a
  | UpdateZCW a => updateZCW env a
  | UpdateThreshold v => updateThreshold env v
  | UpdateUsdtGathered v => updateUsdtGathered env v
  | Withdraw => withdraw env
  | WithdrawParticularZKTC a => withdrawParticularZKTC env a
  | WithdrawAllZKTC => withdrawAllZKTC env
  | SetTimePeriods a b => setTimePeriods env a b
  end.

(** A transaction: a failing call is undone as a whole. *)
Definition call (env : Env) (c : Call) (s : State) : outcome unit * State :=
  match exec env c s with
  | (Ok r, s') => (Ok r, s')
  | (Revert e, _) => (Revert e, s)
  end.

Definition after (env : Env) (c : Call) (s : State) : State := snd (call env c s).

(** What the ABI and the chain guarantee of a transaction: numbers are
    [uint256], addresses are 160 bits wide, and nobody signs for
    [address(0)]. *)
Definition is_uint256 (x : Z) : bool := bool_decide (0 <= x <= MAX_UINT256).
Definition is_address (a : Z) : bool := bool_decide (0 <= a < 2 ^ 160).

Definition wf_call (c : Call) : bool :=
  match c with
  | Initialize o p t z => is_address o && is_uint256 p && is_address t && is_address z
  | SetWalletSupplier a | AddReleaser a | RemoveReleaser a | UpdateZCW a => is_address a
  | SetWalletAddresses _ e _ => is_address e
  | SetTokenPrice v | SetDCOEndTime v | InjectSupply v | UpdatePriceThresholds v
  | UpdateThreshold v | UpdateUsdtGathered v | WithdrawParticularZKTC v => is_uint256 v
  | ReleaseZKTC a b d => is_uint256 a && is_address b && is_uint256 d
  | UpdateAllocations_ u a => is_address u && is_uint256 a
  | SetTimePeriods a b => is_uint256 a && is_uint256 b
  | DonateToZCW_ | Withdraw | WithdrawAllZKTC => true
  end.

Definition wf_env (env : Env) : bool :=
  is_address (msg_sender env) && bool_decide (msg_sender env ≠ 0)
  && is_uint256 (block_timestamp env).

Definition wf_tx (tx : Env * Call) : bool := wf_env tx.1 && wf_call tx.2.

(** The proxy as deployed: zeroed storage, nobody holds a role, next to a
    token ledger in any state. *)
Definition deployed (this : address) (balances allowances : gmap address Z) : State :=
  mkState false 0 ∅ ∅ 0 0 0 0 0 0 0 0 0 0 "" 0 "" 0 ∅ this balances allowances [].

Fixpoint run (txs : list (Env * Call)) (s : State) : State :=
  match txs with
  | [] => s
  | (env, c) :: txs' => run txs' (after env c s)
  end.

Inductive reachable : State -> Prop :=
| reach_deployed this balances allowances :
    reachable (deployed this balances allowances)
| reach_call env c s :
    reachable s -> wf_tx (env, c) = true -> reachable (after env c s).

(** * Derived notions *)

(** What the lock-merge makes of a lock [l] when [amount] tokens are added
    at the time of [env]: the first half goes to the seven-month tranche,
    the rest to the one-year tranche; a lock whose [totalAmount] is zero is
    started afresh, with its claimed counters left as they are. *)
Definition merged (env : Env) (amount : Z) (l : LockedTokens) : LockedTokens :=
  if decide (totalAmount l > 0) then
    mkLockedTokens (totalAmount l + amount) (sevenMonthAmount l + amount / 2)
      (oneYearAmount l + (amount - amount / 2)) (sevenMonthClaimed l) (oneYearClaimed l)
      (lockTimestamp l)
  else
    mkLockedTokens amount (amount / 2) (amount - amount / 2) (sevenMonthClaimed l)
      (oneYearClaimed l) (block_timestamp env).

(** [s'] is [s] with the four fields the repricing loop writes — price,
    threshold, step and event log — replaced. *)
Definition repriced (s s' : State) : Prop :=
  s' = set_events (events s')
         (set_threshold (threshold s')
            (set_incrementThreshold (incrementThreshold s')
               (set_tokenPrice (tokenPrice s') s))).

(** Iterations after which the guard of the repricing loop is false, when
    every iteration raises [threshold] by at least one. *)
Definition reprice_bound (usdGathered threshold_ : Z) : nat :=
  Z.to_nat (usdGathered / 1000000 - threshold_ + 1).

(** What holds of the storage between transactions: before [initialize]
    nothing is set and nobody holds the owner's or the releaser's rights;
    afterwards the threshold step is positive. *)
Definition Inv (s : State) : Prop :=
  if initialized s then 0 < incrementThreshold s
  else tokenPrice s = 0 /\ releasers s = ∅ /\ owner s = 0.

(** ** A sample deployment

    The accounts and transactions used by the examples: the owner holds
    tokens and lets the contract pull them; the sale is initialised at
    time 1000 with a price of 1000 (so one unit of reference currency buys
    [10 ^ 15] tokens). *)
Definition OWNER : address := 1.
Definition TOKEN : address := 2.
Definition CHARITY : address := 3.
Definition BUYER : address := 5.
Definition THIS : address := 100.

Definition genesis : State :=
  deployed THIS {[OWNER := 10 ^ 30]} {[OWNER := 10 ^ 30]}.

Definition by_ (who : address) (time : Z) : Env := mkEnv who time 100.

Definition T0 : Z := 1000.
Definition AFTER_SEVEN_MONTHS : Z := T0 + 187 * days.
Definition AFTER_ONE_YEAR : Z := T0 + 342 * days.

Definition opened : State :=
  run [(by_ OWNER T0, Initialize OWNER 1000 TOKEN CHARITY)] genesis.

Definition funded : State :=
  run [(by_ OWNER (T0 + 1), InjectSupply (10 ^ 27))] opened.

(** ** Failures raised before anything is written

    [checked_first c e]: in call [c], the failure [e] is raised only at
    points that no storage write precedes.  These are the owner and role
    checks of every function, the once-only check of [initialize], and
    every failure of the functions that write only after their last check
    (the setters, [addReleaser], [removeReleaser], [updateZCW], and
    [injectSupply] up to its call of the token).  Left out are a failure
    inside the token, the failures of [initialize] after its once-only
    flag is set, those of [UpdateAllocations] after it has zeroed the
    lock, and every failure inside the bodies of [releaseZKTC],
    [DonateToZCW], [withdraw], [withdrawParticularZKTC] and
    [withdrawAllZKTC]: these five run under [nonReentrant], which sets its
    flag after the role check and before the body. *)
Definition checked_first (c : Call) (e : Error) : bool :=
  match c with
  | Initialize _ _ _ _ =>
      match e with InvalidInitialization => true | _ => false end
  | ReleaseZKTC _ _ _ | DonateToZCW_ | UpdateAllocations_ _ _ =>
      match e with AccessControlUnauthorizedAccount _ _ => true | _ => false end
  | WithdrawParticularZKTC _ | WithdrawAllZKTC =>
      match e with OwnableUnauthorizedAccount _ => true | _ => false end
  | Withdraw => false
  | InjectSupply _ =>
      match e with TokenCallFailed => false | _ => true end
  | _ => true
  end.

(** The buyer is allocated 4000 units' worth of tokens ([4 * 10 ^ 18]). *)
Definition allocated : State :=
  run [(by_ OWNER 2000, ReleaseZKTC 4000 BUYER 0)] funded.

(** ... and claims both tranches after the one-year mark. *)
Definition paid_out : State :=
  run [(by_ BUYER AFTER_ONE_YEAR, Withdraw)] allocated.

(** ... or claims the first tranche and is then re-allocated one unit. *)
Definition reallocated : State :=
  run [(by_ BUYER AFTER_SEVEN_MONTHS, Withdraw);
       (by_ OWNER (AFTER_SEVEN_MONTHS + 1), UpdateAllocations_ BUYER 1)] allocated.

(** The contract holds [10 ^ 16] tokens, all of which are then given out:
    as a donation of 10 units, or as a purchase of 10 units of which the
    buyer claims the first tranche. *)
Definition stocked : State :=
  run [(by_ OWNER (T0 + 1), InjectSupply (10 ^ 16))] opened.

Definition after_donation : State :=
  run [(by_ OWNER 2000, ReleaseZKTC 0 BUYER 10)] stocked.

Definition after_claim : State :=
  run [(by_ OWNER 2000, ReleaseZKTC 10 BUYER 0);
       (by_ BUYER AFTER_SEVEN_MONTHS, Withdraw)] stocked.

(** A sale priced at [10 ^ 18], one token per unit, holding 5000 tokens
    that are all earmarked as donations. *)
Definition with_donations : State :=
  run [(by_ OWNER T0, Initialize OWNER (10 ^ 18) TOKEN CHARITY);
       (by_ OWNER (T0 + 1), InjectSupply 5000);
       (by_ OWNER 2000, ReleaseZKTC 0 BUYER 5000)] genesis.

(** ** Well-formed locks

    The two tranches of a lock are non-negative and add up to its
    [totalAmount]. *)
Definition lock_split (l : LockedTokens) : Prop :=
  0 <= sevenMonthAmount l /\ 0 <= oneYearAmount l
  /\ sevenMonthAmount l + oneYearAmount l = totalAmount l.

Definition locks_split (s : State) : Prop :=
  0 <= tokenPrice s /\ forall u, lock_split (lockOf s u).

(** The claimed counter of each tranche lies between zero and the amount
    of the tranche. *)
Definition claimed_within (l : LockedTokens) : Prop :=
  0 <= sevenMonthClaimed l <= sevenMonthAmount l
  /\ 0 <= oneYearClaimed l <= oneYearAmount l.

(** ** Kinds of calls *)

(** The calls that carry no [onlyOwner] or [onlyRole] modifier. *)
Definition open_to_all (c : Call) : bool :=
  match c with
  | Withdraw | Initialize _ _ _ _ => true
  | _ => false
  end.

(** The calls whose body reaches [safeTransfer] or [safeTransferFrom]. *)
Definition moves_tokens (c : Call) : bool :=
  match c with
  | InjectSupply _ | DonateToZCW_ | Withdraw | WithdrawParticularZKTC _
  | WithdrawAllZKTC => true
  | _ => false
  end.

Definition reallocates (c : Call) : bool :=
  match c with
  | UpdateAllocations_ _ _ => true
  | _ => false
  end.

(** ** What a claim pays

    The part of a tranche that [withdraw] pays at time [now]: all that is
    unclaimed once the mark has passed, nothing before. *)
Definition vested_unclaimed (now mark amount claimed : Z) : Z :=
  if decide (now >= mark /\ amount - claimed > 0) then amount - claimed else 0.

(** The two tranches together, for the caller of [env]: the marks are
    [SEVEN_MONTHS] and [ONE_YEAR] themselves, as [withdraw] compares
    them. *)
Definition payout (env : Env) (s : State) : Z :=
  let l := lockOf s (msg_sender env) in
  vested_unclaimed (block_timestamp env) (SEVEN_MONTHS s)
    (sevenMonthAmount l) (sevenMonthClaimed l)
  + vested_unclaimed (block_timestamp env) (ONE_YEAR s)
      (oneYearAmount l) (oneYearClaimed l).

(** ** Ranges

    [fits x]: [x] is a [uint256]. *)
Definition fits (x : Z) : Prop := 0 <= x <= MAX_UINT256.

(** Every field of a lock, and every number the contract stores, is a
    [uint256]. *)
Definition lock_in_range (l : LockedTokens) : Prop :=
  fits (totalAmount l) /\ fits (sevenMonthAmount l) /\ fits (oneYearAmount l)
  /\ fits (sevenMonthClaimed l) /\ fits (oneYearClaimed l) /\ fits (lockTimestamp l).

Definition pricing_in_range (s : State) : Prop :=
  fits (tokenPrice s) /\ fits (threshold s) /\ fits (incrementThreshold s).

Definition in_range (s : State) : Prop :=
  pricing_in_range s
  /\ (fits (tokenSold s) /\ fits (totalUsdGathered s) /\ fits (totalDonations s))
  /\ (fits (DCO_END_TIME s) /\ fits (SEVEN_MONTHS s) /\ fits (ONE_YEAR s))
  /\ forall u, lock_in_range (lockOf s u).

Arguments MAX_UINT256 : simpl never.
Arguments SCALE : simpl never.

(** * Reasoning about contract code *)

(** ** Inversion of computations

    A hypothesis [m s = (Ok a, s')] or [m s = (Revert e, s')] about a
    computation built from the primitives is taken apart along the paths
    through [m]; the lemmas below are the cases. *)

Ltac invc H := inversion H; subst; clear H.

Section Inversion.
Context {A B : Type}.
Implicit Types (s : State) (e : Error).

Lemma bind_ok (m : M A) (k : A -> M B) s b s' :
  bind m k s = (Ok b, s') ->
  exists a s1, m s = (Ok a, s1) /\ k a s1 = (Ok b, s').
Proof.
  unfold bind. destruct (m s) as [[a|e] s1]; intros H; [eauto | discriminate].
Qed.

Lemma bind_revert (m : M A) (k : A -> M B) s e s' :
  bind m k s = (Revert e, s') ->
  (exists a s1, m s = (Ok a, s1) /\ k a s1 = (Revert e, s'))
  \/ m s = (Revert e, s').
Proof.
  unfold bind. destruct (m s) as [[a|e0] s1]; intros H; [eauto | right; by invc H].
Qed.

Lemma ret_ok (a b : A) s s' : ret a s = (Ok b, s') -> b = a /\ s' = s.
Proof. unfold ret. intros [= -> ->]. done. Qed.

Lemma ret_revert (a : A) s e s' : ret a s = (Revert e, s') -> False.
Proof. discriminate. Qed.

Lemma gets_ok (f : State -> A) s a s' : gets f s = (Ok a, s') -> a = f s /\ s' = s.
Proof. unfold gets. intros [= <- <-]. done. Qed.

Lemma gets_revert (f : State -> A) s e s' : gets f s = (Revert e, s') -> False.
Proof. discriminate. Qed.

Lemma revert_ok e0 s (a : A) s' : revert e0 s = (Ok a, s') -> False.
Proof. discriminate. Qed.

Lemma revert_revert e0 s e s' :
  @revert A e0 s = (Revert e, s') -> e = e0 /\ s' = s.
Proof. unfold revert. intros [= <- <-]. done. Qed.

Lemma if_decide_inv (P : Prop) `{Decision P} (m1 m2 : M A) s r :
  (if decide P then m1 else m2) s = r -> (P /\ m1 s = r) \/ (¬ P /\ m2 s = r).
Proof. destruct (decide P); eauto. Qed.
End Inversion.

Lemma modify_ok f s u s' : modify f s = (Ok u, s') -> s' = f s.
Proof. unfold modify. by intros [= <-]. Qed.

Lemma modify_revert f s e s' : modify f s = (Revert e, s') -> False.
Proof. discriminate. Qed.

Lemma revert_if_ok (P : Prop) `{Decision P} e0 s u s' :
  revert_if P e0 s = (Ok u, s') -> ¬ P /\ s' = s.
Proof. unfold revert_if. destruct (decide P); [discriminate|]. by intros [= <-]. Qed.

Lemma revert_if_revert (P : Prop) `{Decision P} e0 s e s' :
  revert_if P e0 s = (Revert e, s') -> P /\ e = e0 /\ s' = s.
Proof. unfold revert_if. destruct (decide P); [|discriminate]. by intros [= <- <-]. Qed.

Lemma require_ok (P : Prop) `{Decision P} msg s u s' :
  require P msg s = (Ok u, s') -> P /\ s' = s.
Proof. unfold require. destruct (decide P); [|discriminate]. by intros [= <-]. Qed.

Lemma require_revert (P : Prop) `{Decision P} msg s e s' :
  require P msg s = (Revert e, s') -> ¬ P /\ e = RequireFailed msg /\ s' = s.
Proof. unfold require. destruct (decide P); [discriminate|]. by intros [= <- <-]. Qed.

Lemma when_inv (P : Prop) `{Decision P} body s r :
  when P body s = r -> (P /\ body s = r) \/ (¬ P /\ ret tt s = r).
Proof. unfold when. destruct (decide P); eauto. Qed.

Lemma add_ok a b s c s' : add a b s = (Ok c, s') -> a + b <= MAX_UINT256 /\ c = a + b /\ s' = s.
Proof. unfold add. destruct (decide _); [|discriminate]. by intros [= <- <-]. Qed.

Lemma add_revert a b s e s' :
  add a b s = (Revert e, s') -> ¬ a + b <= MAX_UINT256 /\ e = Panic ARITHMETIC /\ s' = s.
Proof. unfold add. destruct (decide _); [discriminate|]. by intros [= <- <-]. Qed.

Lemma sub_ok a b s c s' : sub a b s = (Ok c, s') -> b <= a /\ c = a - b /\ s' = s.
Proof. unfold sub. destruct (decide _); [|discriminate]. by intros [= <- <-]. Qed.

Lemma sub_revert a b s e s' :
  sub a b s = (Revert e, s') -> ¬ b <= a /\ e = Panic ARITHMETIC /\ s' = s.
Proof. unfold sub. destruct (decide _); [discriminate|]. by intros [= <- <-]. Qed.

Lemma mul_ok a b s c s' : mul a b s = (Ok c, s') -> a * b <= MAX_UINT256 /\ c = a * b /\ s' = s.
Proof. unfold mul. destruct (decide _); [|discriminate]. by intros [= <- <-]. Qed.

Lemma mul_revert a b s e s' :
  mul a b s = (Revert e, s') -> ¬ a * b <= MAX_UINT256 /\ e = Panic ARITHMETIC /\ s' = s.
Proof. unfold mul. destruct (decide _); [discriminate|]. by intros [= <- <-]. Qed.

Lemma div_ok a b s c s' : div a b s = (Ok c, s') -> b ≠ 0 /\ c = a / b /\ s' = s.
Proof. unfold div. destruct (decide _); [discriminate|]. by intros [= <- <-]. Qed.

Lemma div_revert a b s e s' :
  div a b s = (Revert e, s') -> b = 0 /\ e = Panic DIVISION_BY_ZERO /\ s' = s.
Proof. unfold div. destruct (decide _); [|discriminate]. by intros [= <- <-]. Qed.

(** Reads of storage that was just written. *)
Ltac reads H :=
  unfold lockOf, balanceOf, move_tokens, set_role_members, role_members in H;
  simpl in H;
  repeat lazymatch type of H with
         | context [<[?k := _]> _ !!! ?k] => rewrite lookup_total_insert_eq in H
         end.

(** An equation [x = v] that an inversion produced: the variable [x] is
    replaced; between two results or two errors it is decided. *)
Ltac settle H :=
  first [ match type of H with ?x = _ => subst x end
        | discriminate H
        | match type of H with ?x = ?x => clear H end
        | injection H as -> ->
        | idtac ].

(** One step of inversion, on the first premise of the goal.  The parts
    of a [bind] are put back in the goal in the order of the program, so
    storage is read in that order and every premise is resolved once. *)
Ltac minv_step :=
  let H := fresh "H" in
  lazymatch goal with
  | |- bind _ _ _ = (Ok _, _) -> _ =>
      intros H; apply bind_ok in H;
      let H1 := fresh "H" in
      destruct H as (? & ? & H1 & H); revert H; revert H1
  | |- bind _ _ _ = (Revert _, _) -> _ =>
      intros H; apply bind_revert in H;
      let H1 := fresh "H" in
      destruct H as [(? & ? & H1 & H) | H]; [revert H; revert H1 | revert H]
  | |- ret _ _ = (Ok _, _) -> _ =>
      intros H; apply ret_ok in H; let Hv := fresh "H" in destruct H as [Hv ->]; settle Hv
  | |- ret _ _ = (Revert _, _) -> _ => intros H; destruct (ret_revert _ _ _ _ H)
  | |- gets _ _ = (Ok _, _) -> _ =>
      intros H; apply gets_ok in H; reads H; destruct H as [-> ->]
  | |- gets _ _ = (Revert _, _) -> _ => intros H; destruct (gets_revert _ _ _ _ H)
  | |- modify _ _ = (Ok _, _) -> _ => intros H; apply modify_ok in H; reads H; settle H
  | |- modify _ _ = (Revert _, _) -> _ => intros H; destruct (modify_revert _ _ _ _ H)
  | |- revert _ _ = (Ok _, _) -> _ => intros H; destruct (revert_ok _ _ _ _ H)
  | |- revert _ _ = (Revert _, _) -> _ =>
      intros H; apply revert_revert in H; let He := fresh "H" in
      destruct H as [He ->]; settle He
  | |- revert_if _ _ _ = (Ok _, _) -> _ =>
      intros H; apply revert_if_ok in H; destruct H as [? ->]
  | |- revert_if _ _ _ = (Revert _, _) -> _ =>
      intros H; apply revert_if_revert in H;
      let He := fresh "H" in destruct H as (? & He & ->); settle He
  | |- require _ _ _ = (Ok _, _) -> _ =>
      intros H; apply require_ok in H; destruct H as [? ->]
  | |- require _ _ _ = (Revert _, _) -> _ =>
      intros H; apply require_revert in H;
      let He := fresh "H" in destruct H as (? & He & ->); settle He
  | |- add _ _ _ = (Ok _, _) -> _ => intros H; apply add_ok in H; destruct H as (? & -> & ->)
  | |- add _ _ _ = (Revert _, _) -> _ =>
      intros H; apply add_revert in H;
      let He := fresh "H" in destruct H as (? & He & ->); settle He
  | |- sub _ _ _ = (Ok _, _) -> _ => intros H; apply sub_ok in H; destruct H as (? & -> & ->)
  | |- sub _ _ _ = (Revert _, _) -> _ =>
      intros H; apply sub_revert in H;
      let He := fresh "H" in destruct H as (? & He & ->); settle He
  | |- mul _ _ _ = (Ok _, _) -> _ => intros H; apply mul_ok in H; destruct H as (? & -> & ->)
  | |- mul _ _ _ = (Revert _, _) -> _ =>
      intros H; apply mul_revert in H;
      let He := fresh "H" in destruct H as (? & He & ->); settle He
  | |- div _ _ _ = (Ok _, _) -> _ => intros H; apply div_ok in H; destruct H as (? & -> & ->)
  | |- div _ _ _ = (Revert _, _) -> _ =>
      intros H; apply div_revert in H;
      let He := fresh "H" in destruct H as (? & He & ->); settle He
  | |- when _ _ _ = (_, _) -> _ =>
      intros H; apply when_inv in H; destruct H as [[? H] | [? H]]; revert H
  | |- (if decide _ then _ else _) _ = (_, _) -> _ =>
      intros H; apply if_decide_inv in H; destruct H as [[? H] | [? H]]; revert H
  | |- emit _ _ = (_, _) -> _ => unfold emit at 1
  | |- add_assign _ _ _ _ = (_, _) -> _ => unfold add_assign at 1
  | |- sub_assign _ _ _ _ = (_, _) -> _ => unfold sub_assign at 1
  | |- read_lock _ _ = (_, _) -> _ => unfold read_lock at 1
  | |- write_lock _ _ _ = (_, _) -> _ => unfold write_lock at 1
  | |- zkBalance _ = (_, _) -> _ => unfold zkBalance at 1
  | |- safeTransfer _ _ _ = (_, _) -> _ => unfold safeTransfer at 1
  | |- safeTransferFrom _ _ _ = (_, _) -> _ => unfold safeTransferFrom at 1
  | |- onlyOwner _ _ = (_, _) -> _ => unfold onlyOwner at 1
  | |- onlyRole _ _ _ = (_, _) -> _ => unfold onlyRole at 1
  | |- _grantRole _ _ _ _ = (_, _) -> _ => unfold _grantRole at 1
  | |- _revokeRole _ _ _ _ = (_, _) -> _ => unfold _revokeRole at 1
  | |- initializer _ = (_, _) -> _ => unfold initializer at 1
  | |- getTotalLockedTokens _ = (_, _) -> _ => unfold getTotalLockedTokens at 1
  | |- getAvailableForWithdrawal _ = (_, _) -> _ => unfold getAvailableForWithdrawal at 1
  | |- checkpoint _ _ _ = (_, _) -> _ => unfold checkpoint at 1
  | |- claim_tranche _ _ _ _ _ _ _ _ = (_, _) -> _ => unfold claim_tranche at 1
  | |- _lockTokensForUser _ _ _ _ = (_, _) -> _ => unfold _lockTokensForUser at 1
  | |- _ = (_, _) -> _ => intros H
  end.

(** [minv]: the goal is [m s = (r, s') -> G]; afterwards there is one goal
    [G] for every path through [m] that ends in [r]. *)
Ltac minv := repeat minv_step.

Ltac minv_in E := revert E; minv.

(** Unfolds the entry point behind [exec env c] for a concrete [c]. *)
Ltac all_calls :=
  unfold initialize, setWalletSupplier, setWalletAddresses, setTokenPrice, setDCOEndTime,
    injectSupply, addReleaser, removeReleaser, releaseZKTC, updatePriceThresholds,
    DonateToZCW, UpdateAllocations, updateZCW, updateThreshold, updateUsdtGathered,
    withdraw, withdrawParticularZKTC, withdrawAllZKTC, setTimePeriods.

(** Closes an equation between two results whose numbers are equal. *)
Ltac same_result :=
  repeat match goal with
         | |- (_, _) = (_, _) => f_equal
         | |- Ok _ = Ok _ => f_equal
         end; (reflexivity || lia).

(** ** The lock-merge *)

Lemma half_bounds a : 0 <= a -> 0 <= a / 2 <= a.
Proof.
  intros. pose proof (Z.div_mod a 2). pose proof (Z.mod_pos_bound a 2). lia.
Qed.

Lemma half_split a b :
  0 <= a -> 0 <= b -> a / 2 + b / 2 <= (a + b) / 2 <= a / 2 + b / 2 + 1.
Proof.
  intros Ha Hb.
  pose proof (Z.div_mod a 2). pose proof (Z.div_mod b 2).
  pose proof (Z.div_mod (a + b) 2).
  pose proof (Z.mod_pos_bound a 2). pose proof (Z.mod_pos_bound b 2).
  pose proof (Z.mod_pos_bound (a + b) 2). lia.
Qed.

(** With room for the amount, the lock-merge succeeds and the user's lock
    becomes [merged]. *)
Lemma lockTokens_ok env user amount s :
  user ≠ 0 -> amount > 0 ->
  0 <= totalAmount (lockOf s user) ->
  sevenMonthAmount (lockOf s user) <= totalAmount (lockOf s user) ->
  oneYearAmount (lockOf s user) <= totalAmount (lockOf s user) ->
  totalAmount (lockOf s user) + amount <= MAX_UINT256 ->
  exists s', _lockTokensForUser env user amount s = (Ok tt, s')
    /\ lockOf s' user = merged env amount (lockOf s user).
Proof.
  intros Hu Ha H0 H7 H1 Hmax.
  pose proof (half_bounds amount ltac:(lia)).
  destruct (_lockTokensForUser env user amount s) as [[[]|e] s'] eqn:E.
  - exists s'. split; [done|].
    unfold merged. minv_in E; unfold lockOf in *; simpl;
      rewrite lookup_total_insert_eq; destruct (decide _); (reflexivity || lia).
  - exfalso. minv_in E; unfold lockOf in *; lia.
Qed.

(** ** The token ledger *)

Lemma balance_move_to from to amount s :
  from ≠ to -> balanceOf (move_tokens from to amount s) to = balanceOf s to + amount.
Proof.
  intros. unfold balanceOf, move_tokens. simpl.
  rewrite lookup_total_insert_eq. by rewrite lookup_total_insert_ne.
Qed.

Lemma balance_move_from from to amount s :
  from ≠ to -> balanceOf (move_tokens from to amount s) from = balanceOf s from - amount.
Proof.
  intros. unfold balanceOf, move_tokens. simpl.
  rewrite lookup_total_insert_ne by done. by rewrite lookup_total_insert_eq.
Qed.

Lemma balance_move_zero from to s a :
  balanceOf (move_tokens from to 0 s) a = balanceOf s a.
Proof.
  unfold balanceOf, move_tokens. simpl.
  destruct (decide (to = a)) as [->|]; destruct (decide (from = a)) as [->|];
    repeat (rewrite lookup_total_insert_eq || rewrite lookup_total_insert_ne by done);
    unfold balanceOf; lia.
Qed.

(** ** The repricing loop *)

Lemma reprice_loop_unfold fuel :
  reprice_loop fuel =
    (usd <- gets totalUsdGathered ;;
     t <- gets threshold ;;
     if decide (usd / 1000000 >= t) then
       match fuel with
       | O => revert OutOfGas
       | S fuel' => reprice_body ;; reprice_loop fuel'
       end
     else ret tt).
Proof. by destruct fuel. Qed.

Lemma repriced_refl s : repriced s s.
Proof. unfold repriced. by destruct s. Qed.

Lemma repriced_trans s1 s2 s3 : repriced s1 s2 -> repriced s2 s3 -> repriced s1 s3.
Proof. unfold repriced. intros H12 H23. rewrite H23 at 1. rewrite H12 at 1. reflexivity. Qed.

(** One iteration: the price goes up by 1000, the threshold by the step
    in force at the end of the iteration, and a positive step stays
    positive. *)
Lemma reprice_body_ok s u s' :
  reprice_body s = (Ok u, s') ->
  repriced s s'
  /\ tokenPrice s' = tokenPrice s + 1000
  /\ threshold s' = threshold s + incrementThreshold s'
  /\ (0 < incrementThreshold s -> 0 < incrementThreshold s').
Proof.
  unfold reprice_body. minv; simpl in *; (split; [reflexivity|]); repeat split; lia.
Qed.

Lemma reprice_body_revert s e s' :
  reprice_body s = (Revert e, s') -> e = Panic ARITHMETIC.
Proof. unfold reprice_body. minv; reflexivity. Qed.

(** A run of the loop that ends normally: only the pricing fields have
    changed, the price did not go down, and the guard is false. *)
Lemma reprice_loop_ok fuel s u s' :
  reprice_loop fuel s = (Ok u, s') ->
  repriced s s'
  /\ tokenPrice s <= tokenPrice s'
  /\ (0 < incrementThreshold s -> 0 < incrementThreshold s')
  /\ totalUsdGathered s' / 1000000 < threshold s'.
Proof.
  revert s. induction fuel as [|fuel IH]; intros s; rewrite reprice_loop_unfold; minv.
  - split; [apply repriced_refl|]. repeat split; (done || lia).
  - match goal with
    | Hb : reprice_body _ = _, Hl : reprice_loop _ _ = _ |- _ =>
        apply reprice_body_ok in Hb as (Hr & Hp & Ht & Hi);
        apply IH in Hl as (Hr' & Hp' & Hi' & Hg)
    end.
    split; [by eapply repriced_trans|]. repeat split; (tauto || lia).
  - split; [apply repriced_refl|]. repeat split; (done || lia).
Qed.

(** A run that fails has overflowed or has used up its iterations. *)
Lemma reprice_loop_revert fuel s e s' :
  reprice_loop fuel s = (Revert e, s') -> e = Panic ARITHMETIC \/ e = OutOfGas.
Proof.
  revert s. induction fuel as [|fuel IH]; intros s; rewrite reprice_loop_unfold; minv.
  - by right.
  - match goal with Hl : reprice_loop _ _ = _ |- _ => by eapply IH end.
  - left. match goal with Hb : reprice_body _ = _ |- _ => by eapply reprice_body_revert end.
Qed.

Lemma repriced_usd s s' : repriced s s' -> totalUsdGathered s' = totalUsdGathered s.
Proof. unfold repriced. intros ->. reflexivity. Qed.

(** With a positive step, [reprice_bound] iterations are enough: the loop
    does not run out of gas. *)
Lemma reprice_loop_gas fuel s e s' :
  0 < incrementThreshold s ->
  (reprice_bound (totalUsdGathered s) (threshold s) <= fuel)%nat ->
  reprice_loop fuel s = (Revert e, s') -> e ≠ OutOfGas.
Proof.
  unfold reprice_bound.
  revert s. induction fuel as [|fuel IH]; intros s Hinc Hfuel;
    rewrite reprice_loop_unfold; minv.
  - lia.
  - match goal with
    | Hb : reprice_body _ = _, Hl : reprice_loop _ _ = _ |- _ =>
        apply reprice_body_ok in Hb as (Hr & Hp & Ht & Hi);
        eapply IH; [| |exact Hl]; [tauto|]
    end.
    rewrite (repriced_usd _ _ Hr). specialize (Hi Hinc). lia.
  - match goal with
    | Hb : reprice_body _ = _ |- _ => apply reprice_body_revert in Hb as ->
    end. discriminate.
Qed.

(** ** Well-formed transactions *)

Lemma is_uint256_spec x : is_uint256 x = true <-> 0 <= x <= MAX_UINT256.
Proof. unfold is_uint256. apply bool_decide_eq_true. Qed.

Lemma is_address_spec a : is_address a = true <-> 0 <= a < 2 ^ 160.
Proof. unfold is_address. apply bool_decide_eq_true. Qed.

Lemma wf_tx_spec env c :
  wf_tx (env, c) = true ->
  (msg_sender env ≠ 0 /\ 0 <= block_timestamp env <= MAX_UINT256) /\ wf_call c = true.
Proof.
  unfold wf_tx, wf_env. simpl.
  rewrite !andb_true_iff, is_address_spec, is_uint256_spec, bool_decide_eq_true.
  tauto.
Qed.

(** Splits [wf_call] of a concrete call into the ranges of its arguments. *)
Ltac wf_ranges H :=
  simpl in H;
  rewrite ?andb_true_iff, ?is_uint256_spec, ?is_address_spec in H.

(** ** The invariant *)

Lemma repriced_frame s s' :
  repriced s s' ->
  initialized s' = initialized s /\ owner s' = owner s /\ releasers s' = releasers s.
Proof. unfold repriced. intros ->. done. Qed.

Lemma Inv_deployed this balances allowances : Inv (deployed this balances allowances).
Proof. done. Qed.

Ltac use_loop :=
  match goal with
  | H : reprice_loop _ _ = (Ok _, _) |- _ =>
      let Hr := fresh "Hr" in let Hf := fresh "Hf" in
      let Hi := fresh "Hi" in let Ho := fresh "Ho" in let Hm := fresh "Hm" in
      apply reprice_loop_ok in H as (Hr & ? & ? & ?);
      pose proof (repriced_frame _ _ Hr) as Hf; simpl in Hf; destruct Hf as (Hi & Ho & Hm);
      clear Hr; unfold Inv in *; simpl in *; rewrite ?Hi, ?Ho, ?Hm in *
  end.

(** A successful call keeps the invariant, and unless it is
    [setTokenPrice] it does not lower the price. *)
Lemma exec_ok_facts env c s u s' :
  exec env c s = (Ok u, s') ->
  wf_tx (env, c) = true ->
  Inv s ->
  Inv s' /\ ((forall p, c ≠ SetTokenPrice p) -> tokenPrice s <= tokenPrice s').
Proof.
  intros E Hwf HI. apply wf_tx_spec in Hwf as [[Hsender Htime] Hwf].
  destruct c; wf_ranges Hwf; simpl in E; revert E; all_calls; minv;
    try use_loop; unfold Inv in *; simpl in *;
    destruct (initialized _) eqn:Hinit; simpl in *; try congruence;
    try (destruct HI as (? & Hrel & Hown); exfalso;
         first [ congruence
               | match goal with
                 | H : ¬ (_ ∉ releasers _) |- _ =>
                     apply H; rewrite Hrel; apply not_elem_of_empty
                 | H : ¬ (_ ≠ owner _) |- _ => apply H; congruence
                 end ]);
    (split; [first [lia | assumption | tauto] | ]);
    first [ intros; lia | intros Hne; exfalso; by eapply Hne ].
Qed.

(** ** Reachable states *)

Lemma reachable_Inv s : reachable s -> Inv s.
Proof.
  induction 1 as [|env c s Hs IH Hwf]; [apply Inv_deployed|].
  unfold after, call. destruct (exec env c s) as [[u|e] s'] eqn:E; simpl; [|done].
  by eapply exec_ok_facts.
Qed.

Lemma reachable_run txs s :
  reachable s -> forallb wf_tx txs = true -> reachable (run txs s).
Proof.
  revert s. induction txs as [|[env c] txs IH]; intros s Hs Hwf; simpl in *; [done|].
  apply andb_true_iff in Hwf as [Hwf Hrest].
  apply IH; [|done]. by apply reach_call.
Qed.

Lemma reachable_opened : reachable opened.
Proof. apply reachable_run; [apply reach_deployed | by vm_compute]. Qed.

(** Whoever passes the releaser check does so after [initialize]. *)
Lemma releaser_initialized s a :
  Inv s -> a ∈ releasers s -> initialized s = true /\ 0 < incrementThreshold s.
Proof.
  unfold Inv. destruct (initialized s); [done|].
  intros (_ & Hr & _). rewrite Hr. set_solver.
Qed.

Ltac reach_from H := apply reachable_run; [exact H | by vm_compute].

Lemma reachable_funded : reachable funded.
Proof. reach_from reachable_opened. Qed.

Lemma reachable_allocated : reachable allocated.
Proof. reach_from reachable_funded. Qed.

Lemma reachable_stocked : reachable stocked.
Proof. reach_from reachable_opened. Qed.

(** ** Locks of reachable states *)

Lemma repriced_locks s s' :
  repriced s s' -> userLockedTokens s' = userLockedTokens s.
Proof. unfold repriced. intros ->. reflexivity. Qed.

Lemma lock_split_zero : lock_split inhabitant.
Proof. unfold lock_split. simpl. lia. Qed.

Lemma locks_split_deployed this balances allowances :
  locks_split (deployed this balances allowances).
Proof.
  split; [done|]. intros u. unfold lockOf. simpl.
  rewrite lookup_total_empty. apply lock_split_zero.
Qed.

(** Reads a lock of a map that was written at one key. *)
Ltac other_lock u :=
  repeat match goal with
         | |- context [<[?k := _]> _ !!! u] =>
             first [ rewrite (lookup_total_insert_eq _ k)
                   | rewrite (lookup_total_insert_ne _ k u) by done ]
         end.

Lemma exec_ok_locks env c s u s' :
  exec env c s = (Ok u, s') ->
  wf_tx (env, c) = true ->
  locks_split s -> locks_split s'.
Proof.
  intros E Hwf [Hprice Hlocks]. apply wf_tx_spec in Hwf as [[Hsender Htime] Hwf].
  destruct c; wf_ranges Hwf; simpl in E; revert E; all_calls; minv;
    try match goal with
        | H : reprice_loop _ _ = (Ok _, _) |- _ =>
            let Hr := fresh "Hr" in
            apply reprice_loop_ok in H as (Hr & ? & ? & ?);
            apply repriced_locks in Hr; simpl in Hr
        end;
    (split; [simpl in *; lia|]); intros who; unfold lockOf in *; simpl in *;
    try match goal with
        | Hr : userLockedTokens _ = userLockedTokens _ |- _ => rewrite Hr in *
        end;
    try apply Hlocks.
  all: match goal with
       | |- lock_split (<[?k := _]> _ !!! ?w) =>
           destruct (decide (k = w)) as [->|Hne];
           [ rewrite lookup_total_insert_eq | other_lock w; apply Hlocks ]
       end.
  all: match goal with
       | |- context [userLockedTokens _ !!! ?w] =>
           pose proof (Hlocks w) as (Hseven & Hone & Hsum)
       end; unfold lock_split in *; simpl in *.
  all: try lia.
  all: match goal with
       | |- context [?a / 2] =>
           assert (0 <= a) by
             (first [ lia
                    | apply Z.div_pos; [apply Z.mul_nonneg_nonneg|]; (lia || done)
                    | apply Z.mul_nonneg_nonneg; (lia || done) ]);
           pose proof (half_bounds a ltac:(done)); lia
       end.
Qed.

Lemma reachable_locks_split s : reachable s -> locks_split s.
Proof.
  induction 1 as [|env c s Hs IH Hwf]; [apply locks_split_deployed|].
  unfold after, call. destruct (exec env c s) as [[u|e] s'] eqn:E; simpl; [|done].
  by eapply exec_ok_locks.
Qed.

(** ** Guards and their failures *)

Lemma bind_reject {A B} (m : M A) (k : A -> M B) s e s' :
  m s = (Revert e, s') -> bind m k s = (Revert e, s').
Proof. unfold bind. by intros ->. Qed.

Lemma onlyOwner_reject env s :
  msg_sender env ≠ owner s ->
  onlyOwner env s = (Revert (OwnableUnauthorizedAccount (msg_sender env)), s).
Proof.
  intros H. unfold onlyOwner, bind, gets, revert_if. simpl.
  by destruct (decide (msg_sender env ≠ owner s)).
Qed.

Lemma onlyRole_reject env r s :
  msg_sender env ∉ role_members r s ->
  onlyRole env r s = (Revert (AccessControlUnauthorizedAccount (msg_sender env) r), s).
Proof.
  intros H. unfold onlyRole, bind, gets, revert_if. simpl.
  by destruct (decide (msg_sender env ∉ role_members r s)).
Qed.

(** ** The claim *)

Lemma vested_unclaimed_spec now mark amount claimed :
  (now >= mark /\ amount - claimed > 0
   /\ vested_unclaimed now mark amount claimed = amount - claimed)
  \/ (¬ (now >= mark /\ amount - claimed > 0)
      /\ vested_unclaimed now mark amount claimed = 0).
Proof. unfold vested_unclaimed. destruct (decide _); tauto. Qed.

(** What a successful [withdraw] does: it pays the caller [payout], adds
    the paid part of each tranche to its claimed counter, and leaves the
    other locks and the counters of the sale alone. *)
Lemma withdraw_ok_facts env s s' :
  withdraw env s = (Ok tt, s') ->
  let user := msg_sender env in
  let l := lockOf s user in
  let l' := lockOf s' user in
  let p7 := vested_unclaimed (block_timestamp env) (SEVEN_MONTHS s)
              (sevenMonthAmount l) (sevenMonthClaimed l) in
  let p1 := vested_unclaimed (block_timestamp env) (ONE_YEAR s)
              (oneYearAmount l) (oneYearClaimed l) in
  (sevenMonthClaimed l' = sevenMonthClaimed l + p7
   /\ oneYearClaimed l' = oneYearClaimed l + p1
   /\ totalAmount l' = totalAmount l
   /\ sevenMonthAmount l' = sevenMonthAmount l
   /\ oneYearAmount l' = oneYearAmount l
   /\ lockTimestamp l' = lockTimestamp l)
  /\ (forall u, u ≠ user -> lockOf s' u = lockOf s u)
  /\ (0 <= p7 /\ 0 <= p1 /\ p7 + p1 <= balanceOf s (self s))
  /\ (tokenSold s' = tokenSold s /\ totalDonations s' = totalDonations s
      /\ tokenPrice s' = tokenPrice s /\ totalUsdGathered s' = totalUsdGathered s)
  /\ exists paid stage,
       zkBalances s' = zkBalances (move_tokens (self s) user paid s)
       /\ events s' = TokensWithdrawnStage user paid stage :: events s
       /\ paid = p7 + p1.
Proof.
  intros E. cbv zeta.
  pose proof (vested_unclaimed_spec (block_timestamp env) (SEVEN_MONTHS s)
                (sevenMonthAmount (lockOf s (msg_sender env)))
                (sevenMonthClaimed (lockOf s (msg_sender env)))) as H7.
  pose proof (vested_unclaimed_spec (block_timestamp env) (ONE_YEAR s)
                (oneYearAmount (lockOf s (msg_sender env)))
                (oneYearClaimed (lockOf s (msg_sender env)))) as H1.
  set (p7 := vested_unclaimed _ (SEVEN_MONTHS s) _ _) in *.
  set (p1 := vested_unclaimed _ (ONE_YEAR s) _ _) in *.
  clearbody p7 p1. revert E. unfold withdraw. minv.
  all: unfold lockOf, balanceOf in *; simpl in *.
  all: rewrite ?lookup_total_insert_eq; simpl.
  all: (split; [repeat split; lia|]).
  all: (split; [intros u Hu; by rewrite ?lookup_total_insert_ne by done|]).
  all: (split; [repeat split; lia|]).
  all: (split; [done|]).
  all: eexists _, _; (split; [reflexivity|]); (split; [reflexivity|]); lia.
Qed.

(** ** The ledger and the claimed counters under the calls *)

Lemma repriced_ledger s s' :
  repriced s s' ->
  zkBalances s' = zkBalances s /\ zkAllowance s' = zkAllowance s /\ self s' = self s.
Proof. unfold repriced. intros ->. repeat split. Qed.

Lemma repriced_counters s s' :
  repriced s s' ->
  tokenSold s' = tokenSold s /\ totalUsdGathered s' = totalUsdGathered s
  /\ totalDonations s' = totalDonations s.
Proof. unfold repriced. intros ->. done. Qed.

Lemma claimed_within_zero : claimed_within inhabitant.
Proof. unfold claimed_within. simpl. lia. Qed.

Lemma exec_ok_claimed env c s u s' :
  exec env c s = (Ok u, s') ->
  wf_tx (env, c) = true ->
  reallocates c = false ->
  locks_split s ->
  (forall a, claimed_within (lockOf s a)) ->
  forall a, claimed_within (lockOf s' a).
Proof.
  intros E Hwf Hc [Hprice Hlocks] Hclaimed.
  apply wf_tx_spec in Hwf as [[Hsender Htime] Hwf].
  destruct c; try discriminate Hc; wf_ranges Hwf; cbn [exec] in E; revert E;
    all_calls; minv;
    try match goal with
        | H : reprice_loop _ _ = (Ok _, _) |- _ =>
            let Hr := fresh "Hr" in
            apply reprice_loop_ok in H as (Hr & ? & ? & ?);
            apply repriced_locks in Hr; simpl in Hr
        end;
    intros who; unfold lockOf in *; simpl in *;
    try match goal with
        | Hr : userLockedTokens _ = userLockedTokens _ |- _ => rewrite Hr in *
        end;
    try apply Hclaimed.
  all: match goal with
       | |- claimed_within (<[?k := _]> _ !!! ?w) =>
           destruct (decide (k = w)) as [->|Hne];
           [ rewrite lookup_total_insert_eq | other_lock w; apply Hclaimed ]
       end.
  all: match goal with
       | |- context [userLockedTokens _ !!! ?w] =>
           pose proof (Hlocks w) as (Hseven & Hone & Hsum);
           pose proof (Hclaimed w) as (Hc7 & Hc1)
       end; unfold lock_split, claimed_within in *; simpl in *.
  all: try lia.
  all: match goal with
       | |- context [?a / 2] =>
           assert (0 <= a) by
             (first [ lia
                    | apply Z.div_pos; [apply Z.mul_nonneg_nonneg|]; (lia || done)
                    | apply Z.mul_nonneg_nonneg; (lia || done) ]);
           pose proof (half_bounds a ltac:(done)); lia
       end.
Qed.

Lemma run_claimed txs s :
  forallb wf_tx txs = true ->
  forallb (fun tx => negb (reallocates tx.2)) txs = true ->
  locks_split s ->
  (forall a, claimed_within (lockOf s a)) ->
  forall a, claimed_within (lockOf (run txs s) a).
Proof.
  revert s. induction txs as [|[env c] txs IH]; intros s Hwf Hre Hsplit Hcl; [done|].
  cbn [forallb] in Hwf, Hre.
  apply andb_true_iff in Hwf as [Hwf Hwfs]. apply andb_true_iff in Hre as [Hre Hres].
  apply negb_true_iff in Hre. cbn [snd] in Hre. cbn [run].
  unfold after, call.
  destruct (exec env c s) as [[u|e] s'] eqn:E; cbn [snd]; [|by apply IH].
  apply IH; [done|done|by eapply exec_ok_locks|by eapply exec_ok_claimed].
Qed.

(** ** The number of repricing steps *)

Lemma reprice_loop_steps fuel s u s' :
  reprice_loop fuel s = (Ok u, s') ->
  exists k : nat,
    (k <= fuel)%nat
    /\ tokenPrice s' = tokenPrice s + 1000 * Z.of_nat k
    /\ (totalUsdGathered s / 1000000 < threshold s -> s' = s).
Proof.
  revert s. induction fuel as [|fuel IH]; intros s; rewrite reprice_loop_unfold; minv.
  - exists 0%nat. repeat split; (done || lia).
  - match goal with
    | Hb : reprice_body _ = _, Hl : reprice_loop _ _ = _ |- _ =>
        apply reprice_body_ok in Hb as (_ & Hp & _);
        apply IH in Hl as (k & Hk & Hp' & _)
    end.
    exists (S k). repeat split; [lia|lia|intros; exfalso; lia].
  - exists 0%nat. repeat split; (done || lia).
Qed.

(** ** Role sets *)

Lemma grant_member (a : address) (X : gset address) : a ∈ X -> {[a]} ∪ X = X.
Proof.
  intros Ha. apply set_eq. intros b. rewrite elem_of_union, elem_of_singleton.
  split; [intros [->|Hb]; assumption | intros Hb; by right].
Qed.

Lemma revoke_non_member (a : address) (X : gset address) : a ∉ X -> X ∖ {[a]} = X.
Proof.
  intros Ha. apply set_eq. intros b. rewrite elem_of_difference, elem_of_singleton.
  split; [by intros [Hb _] | intros Hb; split; [assumption | congruence]].
Qed.

Lemma grant_revoke (a : address) (X : gset address) : a ∉ X -> ({[a]} ∪ X) ∖ {[a]} = X.
Proof.
  intros Ha. apply set_eq. intros b.
  rewrite elem_of_difference, elem_of_union, elem_of_singleton.
  split; [tauto|]. intros Hb. split; [tauto|]. congruence.
Qed.

Lemma granted_member (a : address) (X : gset address) : a ∈ ({[a]} ∪ X : gset address).
Proof. apply elem_of_union. left. by apply elem_of_singleton. Qed.

Lemma revoked_non_member (a : address) (X : gset address) : a ∉ X ∖ {[a]}.
Proof. intros [_ Hn]%elem_of_difference. apply Hn. by apply elem_of_singleton. Qed.

(** A releaser may set any non-zero price. *)
Lemma releaser_sets_price env p s :
  msg_sender env ∈ releasers s -> p ≠ 0 ->
  exists s', setTokenPrice env p s = (Ok tt, s') /\ tokenPrice s' = p.
Proof.
  intros Hin Hp.
  unfold setTokenPrice, onlyRole, bind, gets, revert_if, modify, emit, ret, role_members.
  cbn [fst snd].
  destruct (decide (msg_sender env ∉ _)) as [Hout|_]; [by destruct Hout|].
  destruct (decide (p = 0)) as [|_]; [done|].
  eexists. split; reflexivity.
Qed.

(** [initialize] on a proxy that is initialised. *)
Lemma initialize_again env o p t z s :
  initialized s = true -> initialize env o p t z s = (Revert InvalidInitialization, s).
Proof.
  intros Hi. unfold initialize, initializer, bind, gets, revert_if. cbn [fst snd].
  rewrite Hi. by destruct (decide (true = true)).
Qed.

(** A wallet supplier may store any valid wallet addresses. *)
Lemma supplier_sets_wallets env b e so s :
  msg_sender env ∈ walletSuppliers s ->
  e ≠ 0 -> b ≠ EmptyString -> so ≠ EmptyString ->
  exists s', setWalletAddresses env b e so s = (Ok tt, s')
    /\ btcAddress s' = b /\ ethAddress s' = e /\ solAddress s' = so.
Proof.
  intros Hin He Hb Hs.
  unfold setWalletAddresses, onlyRole, bind, gets, revert_if, modify, ret, role_members.
  cbn [fst snd].
  destruct (decide (msg_sender env ∉ _)) as [Hout|_]; [by destruct Hout|].
  destruct (decide (e = 0)) as [|_]; [done|].
  destruct (decide (String.length b = 0%nat)) as [Hl|_]; [by destruct b|].
  destruct (decide (String.length so = 0%nat)) as [Hl|_]; [by destruct so|].
  eexists. split; [reflexivity|]. repeat split.
Qed.

(** ** Ranges of the stored numbers *)

Lemma max_uint256_large : 400000 <= MAX_UINT256.
Proof. by vm_compute. Qed.

Lemma reprice_body_range s u s' :
  reprice_body s = (Ok u, s') -> pricing_in_range s -> pricing_in_range s'.
Proof.
  pose proof max_uint256_large.
  unfold reprice_body, checkpoint, pricing_in_range, fits. minv; simpl in *; lia.
Qed.

Lemma reprice_loop_range fuel s u s' :
  reprice_loop fuel s = (Ok u, s') -> pricing_in_range s -> pricing_in_range s'.
Proof.
  revert s. induction fuel as [|fuel IH]; intros s; rewrite reprice_loop_unfold; minv;
    try done.
  intros Hs. match goal with
  | Hb : reprice_body _ = _, Hl : reprice_loop _ _ = _ |- _ =>
      eapply IH; [exact Hl|]; eapply reprice_body_range; [exact Hb|exact Hs]
  end.
Qed.

Lemma repriced_times s s' :
  repriced s s' ->
  DCO_END_TIME s' = DCO_END_TIME s /\ SEVEN_MONTHS s' = SEVEN_MONTHS s
  /\ ONE_YEAR s' = ONE_YEAR s.
Proof. unfold repriced. intros ->. repeat split. Qed.

Lemma scaled_nonneg a p : 0 <= a -> 0 <= p -> 0 <= a * SCALE / p.
Proof.
  intros Ha Hp. destruct (decide (p = 0)) as [->|Hne]; [by rewrite Z.div_0_r|].
  apply Z.div_pos; [|lia]. apply Z.mul_nonneg_nonneg; [done | by unfold SCALE].
Qed.

Lemma lock_in_range_zero : lock_in_range inhabitant.
Proof. pose proof max_uint256_large. unfold lock_in_range, fits. simpl. lia. Qed.

Lemma in_range_deployed this balances allowances :
  in_range (deployed this balances allowances).
Proof.
  pose proof max_uint256_large.
  unfold in_range, pricing_in_range, fits, deployed, lockOf. simpl.
  repeat split; try lia; rewrite lookup_total_empty; simpl; lia.
Qed.

Lemma exec_ok_range env c s u s' :
  exec env c s = (Ok u, s') ->
  wf_tx (env, c) = true ->
  in_range s -> in_range s'.
Proof.
  intros E Hwf (Hpricing & Hcounters & Htimes & Hlocks).
  apply wf_tx_spec in Hwf as [[Hsender Htime] Hwf].
  pose proof max_uint256_large as Hmax.
  destruct c; wf_ranges Hwf; cbn [exec] in E; revert E; all_calls; minv;
    try match goal with
        | H : reprice_loop _ _ = (Ok _, _) |- _ =>
            let Hr := fresh "Hr" in
            pose proof (reprice_loop_range _ _ _ _ H Hpricing) as Hpricing';
            apply reprice_loop_ok in H as (Hr & _);
            pose proof (repriced_locks _ _ Hr) as Hrl;
            pose proof (repriced_times _ _ Hr) as (Hdco & Hsev & Hone);
            apply repriced_counters in Hr as (Hsold & Husd & Hdon);
            unfold pricing_in_range in Hpricing';
            cbn [userLockedTokens tokenSold totalUsdGathered totalDonations
                 DCO_END_TIME SEVEN_MONTHS ONE_YEAR
                 set_totalUsdGathered set_tokenSold]
              in Hrl, Hsold, Husd, Hdon, Hdco, Hsev, Hone
        end.
  all: unfold in_range, pricing_in_range, fits in *.
  all: try (pose proof (scaled_nonneg amount (tokenPrice s) ltac:(lia) ltac:(lia));
            pose proof (scaled_nonneg donationAmount (tokenPrice s) ltac:(lia) ltac:(lia))).
  all: (split; [simpl in *; lia|]).
  all: (split; [simpl in *; rewrite ?Hsold, ?Husd, ?Hdon; lia|]).
  all: (split; [simpl in *; rewrite ?Hdco, ?Hsev, ?Hone; unfold days in *; lia|]).
  all: intros who; unfold lockOf in *; simpl in *; rewrite ?Hrl; try apply Hlocks.
  all: match goal with
       | |- lock_in_range (<[?k := _]> _ !!! ?w) =>
           destruct (decide (k = w)) as [->|Hne];
           [ rewrite lookup_total_insert_eq | other_lock w; apply Hlocks ]
       end.
  all: match goal with
       | |- context [userLockedTokens _ !!! ?w] =>
           pose proof (Hlocks w) as (Hl0 & Hl1 & Hl2 & Hl3 & Hl4 & Hl5)
       end; unfold lock_in_range, fits in *; simpl in *; rewrite ?Hrl in *.
  all: try lia.
  all: match goal with
       | |- context [?a / 2] =>
           assert (0 <= a) by
             (first [ lia | apply Z.mul_nonneg_nonneg; (lia || done) ]);
           pose proof (half_bounds a ltac:(done)); lia
       end.
Qed.

(** * Scenarios

    The model run on the worked examples of the specification. *)

(** An allocation of 4000 units at price 1000 locks [4000 * SCALE / 1000]
    tokens, split evenly, and counts them as sold. *)
Example allocation_scenario :
  lockOf allocated BUYER
  = mkLockedTokens (4 * 10 ^ 18) (2 * 10 ^ 18) (2 * 10 ^ 18) 0 0 2000
  /\ tokenSold allocated = tokenSold funded + 4000 * SCALE / 1000
  /\ totalUsdGathered allocated = 4000.
Proof. by vm_compute. Qed.

(** A claim before the seven-month mark fails; the first claim between
    the marks pays the seven-month tranche; a second one fails. *)
Example claim_scenario :
  let early := by_ BUYER (AFTER_SEVEN_MONTHS - 1) in
  let between := by_ BUYER AFTER_SEVEN_MONTHS in
  fst (call early Withdraw allocated) = Revert SevenMonthReleaseNotAvailable
  /\ fst (call between Withdraw allocated) = Ok tt
  /\ balanceOf (after between Withdraw allocated) BUYER = 2 * 10 ^ 18
  /\ sevenMonthClaimed (lockOf (after between Withdraw allocated) BUYER) = 2 * 10 ^ 18
  /\ fst (call between Withdraw (after between Withdraw allocated))
     = Revert OneYearReleaseNotAvailable.
Proof. by vm_compute. Qed.

(** The owner cannot take out unsold tokens while the sale runs. *)
Example owner_withdrawal_scenario :
  fst (call (by_ OWNER 2000) WithdrawAllZKTC allocated)
  = Revert CannotWithdrawBeforeGlobalRelease
  /\ fst (call (by_ OWNER (T0 + 101 * days)) WithdrawAllZKTC allocated) = Ok tt
  /\ balanceOf (after (by_ OWNER (T0 + 101 * days)) WithdrawAllZKTC allocated) THIS
     = tokenSold allocated + totalDonations allocated.
Proof. by vm_compute. Qed.

(** Crossing the first threshold of 137500 million units raises the price
    by one step of 1000 and the threshold by 37500. *)
Example repricing_scenario :
  let s := after (by_ OWNER 2000) (ReleaseZKTC (137500 * 1000000) BUYER 0) funded in
  tokenPrice s = 2000 /\ threshold s = 175000 /\ incrementThreshold s = 37500.
Proof. by vm_compute. Qed.

(** * Lock-merge: two allocations against one *)

(** C9.  Adding [a] and then [b] tokens to the lock of a user gives the
    same [totalAmount] as adding [a + b] at once; the seven-month tranche
    of the two-step lock is the smaller one by at most one unit and its
    one-year tranche the larger one by at most one unit.  The claimed
    counters agree, and so does [lockTimestamp] when the first of the two
    calls and the single call happen at the same time. *)
Theorem lock_merge_two_steps_vs_one (env1 env2 env : Env) (user : address) (a b : Z)
    (s : State) :
  user ≠ 0 -> a > 0 -> b > 0 ->
  0 <= totalAmount (lockOf s user) ->
  sevenMonthAmount (lockOf s user) <= totalAmount (lockOf s user) ->
  oneYearAmount (lockOf s user) <= totalAmount (lockOf s user) ->
  totalAmount (lockOf s user) + a + b <= MAX_UINT256 ->
  exists s2 s1,
    (_lockTokensForUser env1 user a ;; _lockTokensForUser env2 user b) s = (Ok tt, s2)
    /\ _lockTokensForUser env user (a + b) s = (Ok tt, s1)
    /\ totalAmount (lockOf s2 user) = totalAmount (lockOf s1 user)
    /\ sevenMonthAmount (lockOf s2 user) <= sevenMonthAmount (lockOf s1 user)
       <= sevenMonthAmount (lockOf s2 user) + 1
    /\ oneYearAmount (lockOf s1 user) <= oneYearAmount (lockOf s2 user)
       <= oneYearAmount (lockOf s1 user) + 1
    /\ sevenMonthClaimed (lockOf s2 user) = sevenMonthClaimed (lockOf s1 user)
    /\ oneYearClaimed (lockOf s2 user) = oneYearClaimed (lockOf s1 user)
    /\ (block_timestamp env1 = block_timestamp env ->
        lockTimestamp (lockOf s2 user) = lockTimestamp (lockOf s1 user)).
Proof.
  intros Hu Ha Hb H0 H7 H1 Hmax.
  pose proof (half_split a b ltac:(lia) ltac:(lia)) as Hsplit.
  pose proof (half_bounds a ltac:(lia)) as Hha.
  pose proof (half_bounds b ltac:(lia)) as Hhb.
  destruct (lockTokens_ok env1 user a s) as (sa & Ea & La); try lia.
  destruct (lockTokens_ok env2 user b sa) as (s2 & Eb & Lb); try done;
    try (rewrite La; unfold merged; destruct (decide _); simpl; lia).
  destruct (lockTokens_ok env user (a + b) s) as (s1 & E1 & L1); try lia.
  exists s2, s1. split.
  { unfold bind. rewrite Ea. exact Eb. }
  split; [exact E1|].
  rewrite Lb, La, L1. unfold merged.
  destruct (decide (totalAmount (lockOf s user) > 0)); simpl;
    (destruct (decide _); [|lia]); simpl; repeat split; intros; lia.
Qed.

Lemma lock_merge_two_steps_vs_one_witness :
  exists s2 s1,
    (_lockTokensForUser (mkEnv 1 10 0) 5 3 ;; _lockTokensForUser (mkEnv 1 20 0) 5 7)
      (deployed 100 ∅ ∅) = (Ok tt, s2)
    /\ _lockTokensForUser (mkEnv 1 10 0) 5 (3 + 7) (deployed 100 ∅ ∅) = (Ok tt, s1)
    /\ totalAmount (lockOf s2 5) = totalAmount (lockOf s1 5)
    /\ sevenMonthAmount (lockOf s2 5) <= sevenMonthAmount (lockOf s1 5)
       <= sevenMonthAmount (lockOf s2 5) + 1
    /\ oneYearAmount (lockOf s1 5) <= oneYearAmount (lockOf s2 5)
       <= oneYearAmount (lockOf s1 5) + 1
    /\ sevenMonthClaimed (lockOf s2 5) = sevenMonthClaimed (lockOf s1 5)
    /\ oneYearClaimed (lockOf s2 5) = oneYearClaimed (lockOf s1 5)
    /\ (block_timestamp (mkEnv 1 10 0) = block_timestamp (mkEnv 1 10 0) ->
        lockTimestamp (lockOf s2 5) = lockTimestamp (lockOf s1 5)).
Proof.
  apply (lock_merge_two_steps_vs_one (mkEnv 1 10 0) (mkEnv 1 20 0) (mkEnv 1 10 0) 5 3 7
           (deployed 100 ∅ ∅)); vm_compute; (done || discriminate).
Defined.

(** * The quote *)

Lemma scaled_div_bounds x p :
  0 <= x -> 0 < p -> 0 <= x * SCALE / p <= x * SCALE.
Proof.
  intros Hx Hp.
  assert (0 <= x * SCALE) by (apply Z.mul_nonneg_nonneg; [done | by unfold SCALE]).
  split; [by apply Z.div_pos|].
  apply Z.div_le_upper_bound; nia.
Qed.

(** C5, as the code has it.  With [tokenPrice > 0], [tokenSold >= 0] and
    amounts in range: whatever [getQuote] returns, the donation tokens are
    the unclamped ones and the purchase tokens are at most the unclamped
    ones; a quote for a donation alone is returned without any comparison;
    a sum that fits the available balance — the held balance less
    [totalDonations] less [tokenSold] — is returned as it is; and while
    nothing is sold, a sum above the available balance, of which the
    donation alone fits, has the purchase tokens reduced so that the sum
    is the available balance exactly. *)
Theorem getQuote_clamps_purchase_only (s : State) (usdtAmount donationAmount : Z) :
  0 < tokenPrice s ->
  0 <= usdtAmount -> 0 <= donationAmount ->
  (usdtAmount + donationAmount) * SCALE <= MAX_UINT256 ->
  0 <= tokenSold s ->
  let purchase := usdtAmount * SCALE / tokenPrice s in
  let donation := donationAmount * SCALE / tokenPrice s in
  let available := balanceOf s (self s) - totalDonations s - tokenSold s in
  (forall p q s',
      getQuote usdtAmount donationAmount s = (Ok (p, q), s') ->
      q = donation /\ 0 <= p <= purchase /\ s' = s)
  /\ (usdtAmount = 0 ->
      getQuote usdtAmount donationAmount s = (Ok (0, donation), s))
  /\ (usdtAmount ≠ 0 -> purchase + donation <= available ->
      getQuote usdtAmount donationAmount s = (Ok (purchase, donation), s))
  /\ (usdtAmount ≠ 0 -> tokenSold s = 0 ->
      donation <= available < purchase + donation ->
      getQuote usdtAmount donationAmount s = (Ok (available - donation, donation), s)).
Proof.
  intros Hp Hu Hd Hmax Hsold. cbv zeta.
  pose proof (scaled_div_bounds usdtAmount (tokenPrice s) Hu Hp) as Hpu.
  pose proof (scaled_div_bounds donationAmount (tokenPrice s) Hd Hp) as Hdo.
  assert (Hsum : (usdtAmount + donationAmount) * SCALE
                 = usdtAmount * SCALE + donationAmount * SCALE) by ring.
  assert (Hz : donationAmount = 0 -> donationAmount * SCALE / tokenPrice s = 0).
  { intros ->. rewrite Z.mul_0_l. apply Z.div_0_l. lia. }
  assert (Hzu : usdtAmount = 0 -> usdtAmount * SCALE / tokenPrice s = 0).
  { intros ->. rewrite Z.mul_0_l. apply Z.div_0_l. lia. }
  unfold balanceOf.
  split; [|split; [|split]].
  - intros p q s'. unfold getQuote, zkBalance. minv; unfold balanceOf in *;
      set (purchase := usdtAmount * SCALE / tokenPrice s) in *;
      set (donation := donationAmount * SCALE / tokenPrice s) in *;
      clearbody purchase donation;
      repeat split; lia.
  - intros H0.
    destruct (getQuote usdtAmount donationAmount s) as [[[p q]|e] s'] eqn:E;
      revert E; unfold getQuote, zkBalance; minv; unfold balanceOf in *;
      set (purchase := usdtAmount * SCALE / tokenPrice s) in *;
      set (donation := donationAmount * SCALE / tokenPrice s) in *;
      clearbody purchase donation;
      try (exfalso; lia); same_result.
  - intros H0 Hfit.
    destruct (getQuote usdtAmount donationAmount s) as [[[p q]|e] s'] eqn:E;
      revert E; unfold getQuote, zkBalance; minv; unfold balanceOf in *;
      set (purchase := usdtAmount * SCALE / tokenPrice s) in *;
      set (donation := donationAmount * SCALE / tokenPrice s) in *;
      clearbody purchase donation;
      try (exfalso; lia); same_result.
  - intros H0 Hnone Hclamp.
    destruct (getQuote usdtAmount donationAmount s) as [[[p q]|e] s'] eqn:E;
      revert E; unfold getQuote, zkBalance; minv; unfold balanceOf in *;
      set (purchase := usdtAmount * SCALE / tokenPrice s) in *;
      set (donation := donationAmount * SCALE / tokenPrice s) in *;
      clearbody purchase donation;
      try (exfalso; lia); same_result.
Qed.

Lemma getQuote_clamps_purchase_only_witness :
  let purchase := 2 * 10 ^ 12 * SCALE / tokenPrice funded in
  let donation := 0 * SCALE / tokenPrice funded in
  let available :=
    balanceOf funded (self funded) - totalDonations funded - tokenSold funded in
  (forall p q s',
      getQuote (2 * 10 ^ 12) 0 funded = (Ok (p, q), s') ->
      q = donation /\ 0 <= p <= purchase /\ s' = funded)
  /\ (2 * 10 ^ 12 = 0 ->
      getQuote (2 * 10 ^ 12) 0 funded = (Ok (0, donation), funded))
  /\ (2 * 10 ^ 12 ≠ 0 -> purchase + donation <= available ->
      getQuote (2 * 10 ^ 12) 0 funded = (Ok (purchase, donation), funded))
  /\ (2 * 10 ^ 12 ≠ 0 -> tokenSold funded = 0 ->
      donation <= available < purchase + donation ->
      getQuote (2 * 10 ^ 12) 0 funded = (Ok (available - donation, donation), funded)).
Proof.
  apply (getQuote_clamps_purchase_only funded (2 * 10 ^ 12) 0); by vm_compute.
Defined.

(** C5, refuted as stated.  With only a donation amount, [getQuote]
    returns the donation tokens whatever the contract holds: [10 ^ 16]
    tokens are quoted where 5 are held.  With a purchase amount, the sum
    is clamped to the held balance less [totalDonations], here all
    [10 ^ 27] tokens, of which [4 * 10 ^ 18] are already allocated. *)
Lemma getQuote_exceeds_available :
  let s := run [(by_ OWNER (T0 + 1), InjectSupply 5)] opened in
  (0 < tokenPrice s
   /\ fst (getQuote 0 10 s) = Ok (0, 10 ^ 16)
   /\ balanceOf s (self s) - totalDonations s - tokenSold s = 5)
  /\ (0 < tokenPrice allocated
      /\ fst (getQuote (2 * 10 ^ 12) 0 allocated) = Ok (10 ^ 27, 0)
      /\ balanceOf allocated (self allocated) - totalDonations allocated
         - tokenSold allocated = 10 ^ 27 - 4 * 10 ^ 18).
Proof. by vm_compute. Qed.

(** * The donation flush *)

(** C2, at the code.  For a caller with the releaser role and
    [totalDonations = d > 0] covered by the balance, [DonateToZCW] moves
    exactly [d] tokens to [ZCW] and resets [totalDonations]; the event it
    logs is [ZCWDonated 0]: the amount is read after the reset. *)
Theorem DonateToZCW_reports_zero (env : Env) (s : State) :
  msg_sender env ∈ releasers s ->
  totalDonations s > 0 ->
  totalDonations s <= balanceOf s (self s) ->
  ZCW s ≠ self s ->
  exists s',
    DonateToZCW env s = (Ok tt, s')
    /\ totalDonations s' = 0
    /\ balanceOf s' (ZCW s) = balanceOf s (ZCW s) + totalDonations s
    /\ balanceOf s' (self s) = balanceOf s (self s) - totalDonations s
    /\ events s' = ZCWDonated 0 (block_timestamp env) :: events s.
Proof.
  intros Hrole Hd Hbal Hzcw.
  destruct (DonateToZCW env s) as [[[]|e] s'] eqn:E; unfold DonateToZCW in E.
  - exists s'. split; [done|]. minv_in E. simpl. split; [done|].
    pose proof (balance_move_to (self s) (ZCW s) (totalDonations s) s ltac:(done)) as Hto.
    pose proof (balance_move_from (self s) (ZCW s) (totalDonations s) s ltac:(done)) as Hfrom.
    unfold balanceOf, move_tokens in *. simpl in *. done.
  - exfalso. minv_in E; unfold balanceOf in *; (done || lia).
Qed.

Lemma DonateToZCW_reports_zero_witness :
  totalDonations with_donations = 5000
  /\ exists s',
       DonateToZCW (by_ OWNER 3000) with_donations = (Ok tt, s')
       /\ totalDonations s' = 0
       /\ balanceOf s' CHARITY = balanceOf with_donations CHARITY + 5000
       /\ balanceOf s' THIS = balanceOf with_donations THIS - 5000
       /\ events s' = ZCWDonated 0 3000 :: events with_donations.
Proof.
  split; [by vm_compute|].
  apply (DonateToZCW_reports_zero (by_ OWNER 3000) with_donations); by vm_compute.
Defined.

(** * Claims after both tranches are paid *)

(** C3, at the code.  A user whose lock is non-empty and whose two
    tranches are claimed in full calls [withdraw]: before the seven-month
    mark the call fails with [SevenMonthReleaseNotAvailable], from there
    up to the one-year mark with [OneYearReleaseNotAvailable], and once
    both marks have passed it does not fail at all: it succeeds, leaves
    every balance and the lock as they were, and logs a withdrawal of zero
    tokens.  [NoTokensToWithdraw] is raised in none of the three cases. *)
Theorem withdraw_after_full_claim (env : Env) (s : State) :
  let user := msg_sender env in
  let now := block_timestamp env in
  totalAmount (lockOf s user) ≠ 0 ->
  sevenMonthClaimed (lockOf s user) = sevenMonthAmount (lockOf s user) ->
  oneYearClaimed (lockOf s user) = oneYearAmount (lockOf s user) ->
  0 <= balanceOf s (self s) ->
  lockTimestamp (lockOf s user) + ONE_YEAR s <= MAX_UINT256 ->
  (now < SEVEN_MONTHS s ->
     withdraw env s = (Revert SevenMonthReleaseNotAvailable, s))
  /\ (SEVEN_MONTHS s <= now < ONE_YEAR s ->
     withdraw env s = (Revert OneYearReleaseNotAvailable, s))
  /\ (SEVEN_MONTHS s <= now -> ONE_YEAR s <= now ->
     exists s' stage,
       withdraw env s = (Ok tt, s')
       /\ (forall a, balanceOf s' a = balanceOf s a)
       /\ lockOf s' user = lockOf s user
       /\ events s' = TokensWithdrawnStage user 0 stage :: events s).
Proof.
  intros user now Htotal H7 H1 Hbal Hstage. subst user now.
  destruct (withdraw env s) as [[[]|e] s'] eqn:E; revert E; unfold withdraw; minv;
    unfold lockOf, balanceOf in *; try (exfalso; lia).
  all: repeat split; try (intros; exfalso; lia); try reflexivity.
  all: intros _ _; eexists _, _; split; [reflexivity|]; simpl.
  all: split; [intros a; apply (balance_move_zero (self s) (msg_sender env) s a)|].
  all: split; reflexivity.
Qed.

Lemma withdraw_after_full_claim_witness :
  exists s' stage,
    withdraw (by_ BUYER (AFTER_ONE_YEAR + 1)) paid_out = (Ok tt, s')
    /\ (forall a, balanceOf s' a = balanceOf paid_out a)
    /\ lockOf s' BUYER = lockOf paid_out BUYER
    /\ events s' = TokensWithdrawnStage BUYER 0 stage :: events paid_out.
Proof.
  apply (withdraw_after_full_claim (by_ BUYER (AFTER_ONE_YEAR + 1)) paid_out);
    by vm_compute.
Defined.

(** * The price over time *)

(** C7, as the code has it.  From a reachable state, no call other than
    [setTokenPrice] leaves the price lower than it found it: the
    repricing loop of [releaseZKTC] only raises it, [initialize] sets it
    once from zero, the other calls do not write it, and a failing call
    changes nothing. *)
Theorem price_lowered_only_by_setTokenPrice (env : Env) (c : Call) (s : State) :
  reachable s ->
  wf_tx (env, c) = true ->
  (forall p, c ≠ SetTokenPrice p) ->
  tokenPrice s <= tokenPrice (after env c s).
Proof.
  intros Hs Hwf Hc. unfold after, call.
  destruct (exec env c s) as [[u|e] s'] eqn:E; simpl; [|lia].
  eapply exec_ok_facts; eauto using reachable_Inv.
Qed.

Lemma price_lowered_only_by_setTokenPrice_witness :
  tokenPrice funded
  <= tokenPrice (after (by_ OWNER 2000) (ReleaseZKTC (137500 * 1000000) BUYER 0) funded).
Proof.
  apply (price_lowered_only_by_setTokenPrice (by_ OWNER 2000)
           (ReleaseZKTC (137500 * 1000000) BUYER 0) funded).
  - exact reachable_funded.
  - by vm_compute.
  - intros p. discriminate.
Defined.

(** C7, refuted as stated: [setTokenPrice] lowers the price of a
    reachable state from 1000 to 500. *)
Lemma setTokenPrice_lowers_price :
  reachable opened
  /\ wf_tx (by_ OWNER 2000, SetTokenPrice 500) = true
  /\ tokenPrice opened = 1000
  /\ tokenPrice (after (by_ OWNER 2000) (SetTokenPrice 500) opened) = 500.
Proof. split; [exact reachable_opened|]. by vm_compute. Qed.

(** * Failing calls *)

(** C6, as the code has it.  A failing call leaves the storage, the token
    ledger and the log as it found them, because the transaction is undone;
    and for the failures listed by [checked_first] — the owner and role
    checks of every function, the once-only check of [initialize], and the
    checks of the functions that do not run under the reentrancy guard,
    [UpdateAllocations] and the call of the token apart — nothing had been
    written when the check fired. *)
Theorem failing_call_changes_nothing (env : Env) (c : Call) (s : State) (e : Error)
    (s' : State) :
  exec env c s = (Revert e, s') ->
  after env c s = s /\ (checked_first c e = true -> s' = s).
Proof.
  intros E. split.
  { unfold after, call. by rewrite E. }
  destruct c; cbn [exec] in E; revert E; all_calls; minv;
    try match goal with
        | H : reprice_loop _ _ = (Revert _, _) |- _ =>
            apply reprice_loop_revert in H as [-> | ->]
        end;
    cbn [checked_first]; intros Hcf; try discriminate Hcf; try reflexivity;
    exfalso; unfold lockOf, balanceOf in *; (congruence || lia).
Qed.

Lemma failing_call_changes_nothing_witness :
  after (by_ BUYER 2000) (ReleaseZKTC 1 BUYER 0) funded = funded
  /\ (checked_first (ReleaseZKTC 1 BUYER 0)
        (AccessControlUnauthorizedAccount BUYER RELEASER_ROLE) = true ->
      funded = funded).
Proof.
  apply (failing_call_changes_nothing (by_ BUYER 2000) (ReleaseZKTC 1 BUYER 0)
           funded (AccessControlUnauthorizedAccount BUYER RELEASER_ROLE) funded).
  vm_compute. reflexivity.
Defined.

(** C6, refuted as stated: in [withdraw] the balance check comes after the
    seven-month tranche was marked as claimed.  A buyer whose allocation
    was set by [UpdateAllocations] while the contract holds no tokens
    claims at the seven-month mark: the call fails with
    [InsufficientBalance], and the storage at the point of failure has
    [sevenMonthClaimed] raised from 0 to the whole tranche. *)
Lemma withdraw_checks_balance_after_write :
  let s := run [(by_ OWNER 2000, UpdateAllocations_ BUYER 1)] opened in
  let env := by_ BUYER AFTER_SEVEN_MONTHS in
  reachable s
  /\ fst (exec env Withdraw s) = Revert InsufficientBalance
  /\ sevenMonthClaimed (lockOf s BUYER) = 0
  /\ sevenMonthClaimed (lockOf (snd (exec env Withdraw s)) BUYER) = 5 * 10 ^ 17.
Proof.
  split.
  - apply reachable_run; [exact reachable_opened | by vm_compute].
  - by vm_compute.
Qed.

(** * Termination of the repricing loop *)

(** C8.  From a reachable state, [releaseZKTC] with a gas budget of
    [reprice_bound] iterations — one per unit by which the gathered
    amount, in millions, exceeds the threshold — never runs out of gas in
    its repricing loop; for a caller that passes the releaser check the
    threshold step is positive when the loop runs; and
    [updatePriceThresholds] rejects a zero step with
    [InvalidIncrementThreshold], leaving the state as it was. *)
Theorem repricing_loop_terminates (env : Env) (amount : Z) (buyer : address)
    (donationAmount : Z) (s : State) :
  reachable s ->
  (reprice_bound (totalUsdGathered s + (amount + donationAmount)) (threshold s)
   <= gas env)%nat ->
  (exists r s', releaseZKTC env amount buyer donationAmount s = (r, s')
                /\ r ≠ Revert OutOfGas)
  /\ (msg_sender env ∈ releasers s -> 0 < incrementThreshold s)
  /\ (msg_sender env ∈ releasers s ->
      updatePriceThresholds env 0 s = (Revert InvalidIncrementThreshold, s)).
Proof.
  intros Hs Hgas. apply reachable_Inv in Hs.
  repeat split.
  - destruct (releaseZKTC env amount buyer donationAmount s) as [[[]|e] s'] eqn:E;
      [by eexists _, _|].
    exists (Revert e), s'. split; [done|]. intros [= ->]. revert E.
    unfold releaseZKTC. minv; try discriminate.
    match goal with
    | H : reprice_loop _ _ = (Revert _, _) |- _ =>
        eapply reprice_loop_gas in H; [by apply H| |]; simpl
    end.
    + eapply releaser_initialized; [done|]. by apply dec_stable.
    + done.
  - intros Hr. by eapply releaser_initialized.
  - intros Hr.
    destruct (updatePriceThresholds env 0 s) as [[[]|e] s'] eqn:E; revert E;
      unfold updatePriceThresholds; minv; (done || reflexivity).
Qed.

Lemma repricing_loop_terminates_witness :
  (exists r s', releaseZKTC (by_ OWNER 2000) (137500 * 1000000) BUYER 0 funded = (r, s')
                /\ r ≠ Revert OutOfGas)
  /\ (msg_sender (by_ OWNER 2000) ∈ releasers funded -> 0 < incrementThreshold funded)
  /\ (msg_sender (by_ OWNER 2000) ∈ releasers funded ->
      updatePriceThresholds (by_ OWNER 2000) 0 funded
      = (Revert InvalidIncrementThreshold, funded)).
Proof.
  apply (repricing_loop_terminates (by_ OWNER 2000) (137500 * 1000000) BUYER 0 funded).
  - apply reachable_run; [exact reachable_opened | by vm_compute].
  - vm_compute. lia.
Defined.

(** * Sold tokens against the held balance *)

(** C1, at the code.  Two reachable states in which [tokenSold] exceeds
    the held balance less [totalDonations], so that
    [getAvailableForWithdrawal] fails with an arithmetic panic.  In the
    first a donation was allocated: [releaseZKTC] adds it to [tokenSold]
    and to [totalDonations], counting it twice.  In the second a buyer
    claimed a tranche: the tokens leave the balance and [tokenSold] stays
    as it was. *)
Theorem tokenSold_exceeds_held_balance :
  (reachable after_donation
   /\ tokenSold after_donation = 10 ^ 16
   /\ balanceOf after_donation THIS - totalDonations after_donation = 0
   /\ fst (getAvailableForWithdrawal after_donation) = Revert (Panic ARITHMETIC))
  /\ (reachable after_claim
      /\ tokenSold after_claim = 10 ^ 16
      /\ balanceOf after_claim THIS - totalDonations after_claim = 5 * 10 ^ 15
      /\ fst (getAvailableForWithdrawal after_claim) = Revert (Panic ARITHMETIC)).
Proof.
  split; (split; [reach_from reachable_stocked | by vm_compute]).
Qed.

(** * Claimed counters after a re-allocation *)

(** C4, at the code.  A buyer holds [4 * 10 ^ 18] tokens, claims the
    seven-month tranche of [2 * 10 ^ 18], and is then re-allocated one
    unit by [UpdateAllocations]: the tranche amounts are replaced and the
    claimed counters are not, so [sevenMonthClaimed] exceeds
    [sevenMonthAmount].  From then on the view fails on its own
    [UnderflowDetected] check and the buyer's [withdraw] panics. *)
Theorem UpdateAllocations_keeps_claimed_counters :
  reachable reallocated
  /\ sevenMonthAmount (lockOf reallocated BUYER) = 5 * 10 ^ 17
  /\ sevenMonthClaimed (lockOf reallocated BUYER) = 2 * 10 ^ 18
  /\ fst (getWithdrawableAmount (by_ BUYER (3 * AFTER_ONE_YEAR)) BUYER reallocated)
     = Revert UnderflowDetected
  /\ fst (call (by_ BUYER AFTER_ONE_YEAR) Withdraw reallocated) = Revert (Panic ARITHMETIC).
Proof.
  split; [reach_from reachable_allocated | by vm_compute].
Qed.

(** * The view and the claim *)

(** C10, at the code.  At the seven-month mark the buyer's [withdraw]
    pays the seven-month tranche of [2 * 10 ^ 18] tokens, while
    [getWithdrawableAmount] for the same buyer, state and time returns 0:
    the view compares the time with [lockTimestamp + SEVEN_MONTHS], the
    claim with [SEVEN_MONTHS]. *)
Theorem view_and_withdraw_disagree :
  let env := by_ BUYER AFTER_SEVEN_MONTHS in
  reachable allocated
  /\ fst (getWithdrawableAmount env BUYER allocated) = Ok 0
  /\ fst (call env Withdraw allocated) = Ok tt
  /\ balanceOf (after env Withdraw allocated) BUYER
     = balanceOf allocated BUYER + 2 * 10 ^ 18.
Proof.
  split; [exact reachable_allocated | by vm_compute].
Qed.

(** * Further properties of the ledger *)

(** A successful [releaseZKTC] adds exactly the purchase tokens and the
    donation tokens, both computed at the price before the call, to
    [tokenSold], the two amounts to [totalUsdGathered], and the donation
    tokens to [totalDonations]. *)
Theorem releaseZKTC_accounting (env : Env) (amount : Z) (buyer : address)
    (donationAmount : Z) (s s' : State) :
  releaseZKTC env amount buyer donationAmount s = (Ok tt, s') ->
  0 <= tokenPrice s -> 0 <= donationAmount ->
  let tokensToBuy := amount * SCALE / tokenPrice s in
  let donation := donationAmount * SCALE / tokenPrice s in
  tokenSold s' = tokenSold s + (tokensToBuy + donation)
  /\ totalUsdGathered s' = totalUsdGathered s + (amount + donationAmount)
  /\ totalDonations s' = totalDonations s + donation.
Proof.
  intros E Hp Hd. cbv zeta. revert E. unfold releaseZKTC. minv.
  all: match goal with
       | H : reprice_loop _ _ = (Ok _, _) |- _ =>
           apply reprice_loop_ok in H as (Hr & _);
           apply repriced_counters in Hr as (Hsold & Husd & Hdon); simpl in *
       end.
  all: rewrite ?Hsold, ?Husd, ?Hdon; repeat split; try reflexivity.
  all: match goal with
       | Hn : ¬ ?d > 0 |- _ = _ + ?d =>
           assert (0 <= d) by
             (apply Z.div_pos; [apply Z.mul_nonneg_nonneg; (lia || done) | lia]);
           lia
       end.
Qed.

Lemma releaseZKTC_accounting_witness :
  tokenSold allocated = tokenSold funded + (4000 * SCALE / 1000 + 0 * SCALE / 1000)
  /\ totalUsdGathered allocated = totalUsdGathered funded + (4000 + 0)
  /\ totalDonations allocated = totalDonations funded + 0 * SCALE / 1000.
Proof.
  apply (releaseZKTC_accounting (by_ OWNER 2000) 4000 BUYER 0 funded allocated);
    by vm_compute.
Defined.

(** In every reachable state the two tranches of every lock are
    non-negative and add up to its [totalAmount], so the hypotheses of the
    lock-merge theorem hold there. *)
Theorem reachable_locks_are_split (s : State) (user : address) :
  reachable s ->
  0 <= sevenMonthAmount (lockOf s user) <= totalAmount (lockOf s user)
  /\ 0 <= oneYearAmount (lockOf s user) <= totalAmount (lockOf s user)
  /\ sevenMonthAmount (lockOf s user) + oneYearAmount (lockOf s user)
     = totalAmount (lockOf s user).
Proof.
  intros Hs. apply reachable_locks_split in Hs as [_ Hl].
  destruct (Hl user) as (H7 & H1 & Hsum). lia.
Qed.

Lemma reachable_locks_are_split_witness :
  0 <= sevenMonthAmount (lockOf allocated BUYER) <= totalAmount (lockOf allocated BUYER)
  /\ 0 <= oneYearAmount (lockOf allocated BUYER) <= totalAmount (lockOf allocated BUYER)
  /\ sevenMonthAmount (lockOf allocated BUYER) + oneYearAmount (lockOf allocated BUYER)
     = totalAmount (lockOf allocated BUYER).
Proof.
  apply (reachable_locks_are_split allocated BUYER). exact reachable_allocated.
Defined.

(** A successful [withdrawAllZKTC] happens at or after [DCO_END_TIME] and
    moves exactly the held balance less [totalDonations] less [tokenSold]
    to the owner. *)
Theorem withdrawAllZKTC_pays_available (env : Env) (s s' : State) :
  withdrawAllZKTC env s = (Ok tt, s') ->
  msg_sender env ≠ self s ->
  let available := balanceOf s (self s) - totalDonations s - tokenSold s in
  msg_sender env = owner s
  /\ DCO_END_TIME s <= block_timestamp env
  /\ 0 < available
  /\ balanceOf s' (msg_sender env) = balanceOf s (msg_sender env) + available
  /\ balanceOf s' (self s) = totalDonations s + tokenSold s
  /\ events s' = AllTokensWithdrawn (msg_sender env) available :: events s.
Proof.
  intros E Hne. cbv zeta. revert E. unfold withdrawAllZKTC. minv.
  pose proof (balance_move_to (self s) (msg_sender env)
                (balanceOf s (self s) - totalDonations s - tokenSold s) s
                ltac:(done)) as Hto.
  pose proof (balance_move_from (self s) (msg_sender env)
                (balanceOf s (self s) - totalDonations s - tokenSold s) s
                ltac:(done)) as Hfrom.
  unfold move_tokens, balanceOf in *. simpl in *.
  repeat split; (done || lia).
Qed.

Lemma withdrawAllZKTC_pays_available_witness :
  let env := by_ OWNER (T0 + 101 * days) in
  let paid := after env WithdrawAllZKTC allocated in
  msg_sender env = owner allocated
  /\ DCO_END_TIME allocated <= block_timestamp env
  /\ 0 < balanceOf allocated (self allocated) - totalDonations allocated
         - tokenSold allocated
  /\ balanceOf paid (msg_sender env)
     = balanceOf allocated (msg_sender env)
       + (balanceOf allocated (self allocated) - totalDonations allocated
          - tokenSold allocated)
  /\ balanceOf paid (self allocated) = totalDonations allocated + tokenSold allocated
  /\ events paid
     = AllTokensWithdrawn (msg_sender env)
         (balanceOf allocated (self allocated) - totalDonations allocated
          - tokenSold allocated) :: events allocated.
Proof.
  apply (withdrawAllZKTC_pays_available (by_ OWNER (T0 + 101 * days)) allocated
           (after (by_ OWNER (T0 + 101 * days)) WithdrawAllZKTC allocated));
    by vm_compute.
Defined.

(** * Who may call what *)

(** A caller who is not the owner and holds neither role is turned away by
    every function except [withdraw] and [initialize]: the call fails with
    [OwnableUnauthorizedAccount] or [AccessControlUnauthorizedAccount]
    naming the caller, and the storage is as before. *)
Theorem unauthorized_caller_rejected (env : Env) (c : Call) (s : State) :
  msg_sender env ≠ owner s ->
  msg_sender env ∉ releasers s ->
  msg_sender env ∉ walletSuppliers s ->
  open_to_all c = false ->
  exists e,
    call env c s = (Revert e, s)
    /\ (e = OwnableUnauthorizedAccount (msg_sender env)
        \/ exists r, e = AccessControlUnauthorizedAccount (msg_sender env) r).
Proof.
  intros Ho Hr Hw Hc. unfold call.
  destruct c; try discriminate Hc; simpl; all_calls;
    first [ rewrite (bind_reject _ _ _ _ _ (onlyOwner_reject env s Ho)); eauto
          | rewrite (bind_reject _ _ _ _ _ (onlyRole_reject env RELEASER_ROLE s Hr)); eauto
          | rewrite (bind_reject _ _ _ _ _ (onlyRole_reject env WALLET_SUPPLIER_ROLE s Hw));
            eauto ].
Qed.

Lemma unauthorized_caller_rejected_witness :
  exists e,
    call (by_ BUYER 2000) (SetTokenPrice 1) funded = (Revert e, funded)
    /\ (e = OwnableUnauthorizedAccount (msg_sender (by_ BUYER 2000))
        \/ exists r, e = AccessControlUnauthorizedAccount (msg_sender (by_ BUYER 2000)) r).
Proof.
  apply (unauthorized_caller_rejected (by_ BUYER 2000) (SetTokenPrice 1) funded);
    by vm_compute.
Defined.

(** A successful [initialize] ran on a proxy not yet initialised, with a
    non-zero owner, token and charity address and a positive price; it
    stores them with the first threshold of 137500 and step of 37500,
    gives the owner both roles, and sets [DCO_END_TIME], [SEVEN_MONTHS]
    and [ONE_YEAR] to 101, 187 and 342 days after the block time.  Every
    later [initialize], whatever its caller and arguments, fails with
    [InvalidInitialization]. *)
Theorem initialize_once (env : Env) (initialOwner : address) (tokenPrice_ : Z)
    (zktcAddress zcwAddress : address) (s s' : State) :
  initialize env initialOwner tokenPrice_ zktcAddress zcwAddress s = (Ok tt, s') ->
  (initialized s = false /\ initialOwner ≠ 0 /\ tokenPrice_ > 0
   /\ zktcAddress ≠ 0 /\ zcwAddress ≠ 0)
  /\ (owner s' = initialOwner /\ tokenPrice s' = tokenPrice_
      /\ zkToken s' = zktcAddress /\ ZCW s' = zcwAddress
      /\ incrementThreshold s' = 37500 /\ threshold s' = 137500)
  /\ (initialOwner ∈ releasers s' /\ initialOwner ∈ walletSuppliers s')
  /\ (DCO_END_TIME s' = block_timestamp env + 101 * days
      /\ SEVEN_MONTHS s' = block_timestamp env + 187 * days
      /\ ONE_YEAR s' = block_timestamp env + 342 * days)
  /\ (forall env' o p t z,
        initialize env' o p t z s' = (Revert InvalidInitialization, s')).
Proof.
  intros E. revert E. unfold initialize at 1. minv.
  all: repeat match goal with
         | H : ¬ (_ ∉ _) |- _ => apply dec_stable in H
         end.
  all: cbn [owner tokenPrice zkToken ZCW incrementThreshold threshold releasers
            walletSuppliers DCO_END_TIME SEVEN_MONTHS ONE_YEAR set_ONE_YEAR
            set_SEVEN_MONTHS set_DCO_END_TIME set_events set_walletSuppliers
            set_releasers set_threshold set_incrementThreshold set_ZCW set_zkToken
            set_tokenPrice set_owner set_initialized].
  all: split; [repeat split; try assumption; by destruct (initialized s)|].
  all: split; [repeat split|].
  all: split; [split; first [apply granted_member | assumption]|].
  all: split; [repeat split|].
  all: intros env' o p t z; apply initialize_again; reflexivity.
Qed.

Lemma initialize_once_witness :
  (initialized genesis = false /\ OWNER ≠ 0 /\ 1000 > 0 /\ TOKEN ≠ 0 /\ CHARITY ≠ 0)
  /\ (owner opened = OWNER /\ tokenPrice opened = 1000
      /\ zkToken opened = TOKEN /\ ZCW opened = CHARITY
      /\ incrementThreshold opened = 37500 /\ threshold opened = 137500)
  /\ (OWNER ∈ releasers opened /\ OWNER ∈ walletSuppliers opened)
  /\ (DCO_END_TIME opened = block_timestamp (by_ OWNER T0) + 101 * days
      /\ SEVEN_MONTHS opened = block_timestamp (by_ OWNER T0) + 187 * days
      /\ ONE_YEAR opened = block_timestamp (by_ OWNER T0) + 342 * days)
  /\ (forall env' o p t z,
        initialize env' o p t z opened = (Revert InvalidInitialization, opened)).
Proof.
  apply (initialize_once (by_ OWNER T0) OWNER 1000 TOKEN CHARITY genesis opened).
  by vm_compute.
Defined.

(** After a successful [addReleaser] the releasers are the old ones and the
    new account (which is not checked against the zero address), and the
    new account can at once set any non-zero token price. *)
Theorem addReleaser_grants (env env' : Env) (releaser : address) (newTokenPrice : Z)
    (s s' : State) :
  addReleaser env releaser s = (Ok tt, s') ->
  msg_sender env' = releaser ->
  newTokenPrice ≠ 0 ->
  releasers s' = {[releaser]} ∪ releasers s
  /\ exists s'', setTokenPrice env' newTokenPrice s' = (Ok tt, s'')
                 /\ tokenPrice s'' = newTokenPrice.
Proof.
  intros E Hsender Hprice. revert E. unfold addReleaser. minv.
  - split; [reflexivity|]. apply releaser_sets_price; [|assumption].
    subst releaser. cbn [releasers set_releasers set_events]. apply granted_member.
  - match goal with H : ¬ (_ ∉ _) |- _ => apply dec_stable in H; rename H into Hin end.
    cbn [releasers set_events]. split; [symmetry; by apply grant_member|].
    apply releaser_sets_price; [|assumption].
    subst releaser. exact Hin.
Qed.

Lemma addReleaser_grants_witness :
  let s' := after (by_ OWNER 2000) (AddReleaser BUYER) funded in
  releasers s' = {[BUYER]} ∪ releasers funded
  /\ exists s'', setTokenPrice (by_ BUYER 2001) 5 s' = (Ok tt, s'')
                 /\ tokenPrice s'' = 5.
Proof.
  apply (addReleaser_grants (by_ OWNER 2000) (by_ BUYER 2001) BUYER 5 funded
           (after (by_ OWNER 2000) (AddReleaser BUYER) funded)); by vm_compute.
Defined.

(** After a successful [removeReleaser] the account is no releaser: the
    set of releasers is the old one less the account, and a [releaseZKTC]
    sent by it fails with [AccessControlUnauthorizedAccount].  The log
    gains [ReleaserRemoved], preceded by the [RoleRevoked] of the access
    control when the account did hold the role. *)
Theorem removeReleaser_revokes (env env' : Env) (releaser : address) (s s' : State)
    (amount : Z) (buyer : address) (donationAmount : Z) :
  removeReleaser env releaser s = (Ok tt, s') ->
  msg_sender env' = releaser ->
  (releaser ∉ releasers s')
  /\ releasers s' = releasers s ∖ {[releaser]}
  /\ releaseZKTC env' amount buyer donationAmount s'
     = (Revert (AccessControlUnauthorizedAccount releaser RELEASER_ROLE), s')
  /\ events s'
     = ReleaserRemoved releaser
       :: (if decide (releaser ∈ releasers s)
           then RoleRevoked RELEASER_ROLE releaser (msg_sender env) :: events s
           else events s).
Proof.
  intros E Hsender. revert E. unfold removeReleaser. minv.
  - match goal with H : _ ∈ releasers s |- _ => rename H into Hin end.
    cbn [releasers set_releasers set_events events].
    pose proof (revoked_non_member releaser (releasers s)) as Hout.
    split; [exact Hout|]. split; [reflexivity|]. split.
    + unfold releaseZKTC. apply bind_reject. subst releaser.
      apply onlyRole_reject. exact Hout.
    + destruct (decide (releaser ∈ releasers s)); [reflexivity|contradiction].
  - match goal with H : _ ∉ releasers s |- _ => rename H into Hout end.
    cbn [releasers set_events events].
    split; [exact Hout|]. split; [symmetry; by apply revoke_non_member|]. split.
    + unfold releaseZKTC. apply bind_reject. subst releaser.
      apply onlyRole_reject. exact Hout.
    + destruct (decide (releaser ∈ releasers s)); [contradiction|reflexivity].
Qed.

Lemma removeReleaser_revokes_witness :
  let env := by_ OWNER 2000 in
  let s' := after env (RemoveReleaser OWNER) funded in
  (OWNER ∉ releasers s')
  /\ releasers s' = releasers funded ∖ {[OWNER]}
  /\ releaseZKTC (by_ OWNER 2001) 4000 BUYER 0 s'
     = (Revert (AccessControlUnauthorizedAccount OWNER RELEASER_ROLE), s')
  /\ events s'
     = ReleaserRemoved OWNER
       :: (if decide (OWNER ∈ releasers funded)
           then RoleRevoked RELEASER_ROLE OWNER (msg_sender env) :: events funded
           else events funded).
Proof.
  apply (removeReleaser_revokes (by_ OWNER 2000) (by_ OWNER 2001) OWNER funded
           (after (by_ OWNER 2000) (RemoveReleaser OWNER) funded) 4000 BUYER 0);
    by vm_compute.
Defined.

(** Adding an account that was no releaser and removing it again leaves
    the storage as it was, but for the four events in the log:
    [RoleGranted] and [ReleaserAdded], then [RoleRevoked] and
    [ReleaserRemoved]. *)
Theorem releaser_round_trip (env1 env2 : Env) (releaser : address) (s s1 s2 : State) :
  addReleaser env1 releaser s = (Ok tt, s1) ->
  removeReleaser env2 releaser s1 = (Ok tt, s2) ->
  releaser ∉ releasers s ->
  s2 = set_events
         (ReleaserRemoved releaser
          :: RoleRevoked RELEASER_ROLE releaser (msg_sender env2)
          :: ReleaserAdded releaser
          :: RoleGranted RELEASER_ROLE releaser (msg_sender env1) :: events s) s.
Proof.
  intros E1 E2 Hout. revert E1. unfold addReleaser. minv; [|contradiction].
  revert E2. unfold removeReleaser. minv.
  - cbn [releasers set_releasers set_events events].
    rewrite (grant_revoke releaser (releasers s) Hout). by destruct s.
  - exfalso. match goal with H : _ ∉ _ ∪ _ |- _ => apply H end. apply granted_member.
Qed.

Lemma releaser_round_trip_witness :
  after (by_ OWNER 2001) (RemoveReleaser BUYER)
    (after (by_ OWNER 2000) (AddReleaser BUYER) funded)
  = set_events
      (ReleaserRemoved BUYER
       :: RoleRevoked RELEASER_ROLE BUYER (msg_sender (by_ OWNER 2001))
       :: ReleaserAdded BUYER
       :: RoleGranted RELEASER_ROLE BUYER (msg_sender (by_ OWNER 2000))
       :: events funded) funded.
Proof.
  apply (releaser_round_trip (by_ OWNER 2000) (by_ OWNER 2001) BUYER funded
           (after (by_ OWNER 2000) (AddReleaser BUYER) funded));
    by vm_compute.
Defined.

(** [setWalletSupplier] succeeds only for a non-zero account, and the
    account it names can then store any three wallet addresses of which
    the Ethereum one is non-zero and the other two are non-empty. *)
Theorem setWalletSupplier_enables_setWalletAddresses (env env' : Env)
    (walletSupplier : address) (btcAddress_ : string) (ethAddress_ : address)
    (solAddress_ : string) (s s' : State) :
  setWalletSupplier env walletSupplier s = (Ok tt, s') ->
  msg_sender env' = walletSupplier ->
  ethAddress_ ≠ 0 -> btcAddress_ ≠ EmptyString -> solAddress_ ≠ EmptyString ->
  walletSupplier ≠ 0
  /\ exists s'', setWalletAddresses env' btcAddress_ ethAddress_ solAddress_ s' = (Ok tt, s'')
       /\ btcAddress s'' = btcAddress_ /\ ethAddress s'' = ethAddress_
       /\ solAddress s'' = solAddress_.
Proof.
  intros E Hsender He Hb Hs. revert E. unfold setWalletSupplier. minv.
  all: repeat match goal with
         | H : ¬ (_ ∉ _) |- _ => apply dec_stable in H
         end.
  all: split; [assumption|].
  all: apply supplier_sets_wallets; [|assumption..].
  all: subst walletSupplier; cbn [walletSuppliers set_walletSuppliers set_events].
  all: first [apply granted_member | assumption].
Qed.

Lemma setWalletSupplier_enables_setWalletAddresses_witness :
  let s' := after (by_ OWNER 2000) (SetWalletSupplier BUYER) funded in
  BUYER ≠ 0
  /\ exists s'', setWalletAddresses (by_ BUYER 2001) "bc1q" 7 "So11" s' = (Ok tt, s'')
       /\ btcAddress s'' = "bc1q" /\ ethAddress s'' = 7 /\ solAddress s'' = "So11".
Proof.
  apply (setWalletSupplier_enables_setWalletAddresses (by_ OWNER 2000) (by_ BUYER 2001)
           BUYER "bc1q" 7 "So11" funded
           (after (by_ OWNER 2000) (SetWalletSupplier BUYER) funded));
    by vm_compute.
Defined.

(** * Claims of locked tokens *)

(** A successful [withdraw] pays the caller exactly what it adds to the
    two claimed counters, which is [payout]: every tranche whose mark has
    passed, less what was claimed of it.  The amount comes out of the
    contract's balance; the amounts and the timestamp of the lock, the
    locks of all other users, [tokenSold] and [totalDonations] stay as
    they were. *)
Theorem withdraw_pays_what_it_marks (env : Env) (s s' : State) :
  withdraw env s = (Ok tt, s') ->
  msg_sender env ≠ self s ->
  let user := msg_sender env in
  let l := lockOf s user in
  let l' := lockOf s' user in
  let paid := (sevenMonthClaimed l' - sevenMonthClaimed l)
              + (oneYearClaimed l' - oneYearClaimed l) in
  paid = payout env s
  /\ 0 <= paid <= balanceOf s (self s)
  /\ balanceOf s' user = balanceOf s user + paid
  /\ balanceOf s' (self s) = balanceOf s (self s) - paid
  /\ (totalAmount l' = totalAmount l /\ sevenMonthAmount l' = sevenMonthAmount l
      /\ oneYearAmount l' = oneYearAmount l /\ lockTimestamp l' = lockTimestamp l)
  /\ (forall u, u ≠ user -> lockOf s' u = lockOf s u)
  /\ (tokenSold s' = tokenSold s /\ totalDonations s' = totalDonations s).
Proof.
  intros E Hself. cbv zeta.
  apply withdraw_ok_facts in E as (Hl & Hothers & Hp & Hc & paid & stage & Hb & _ & ->).
  cbv zeta in *. unfold payout.
  set (p7 := vested_unclaimed _ (SEVEN_MONTHS s) _ _) in *.
  set (p1 := vested_unclaimed _ (ONE_YEAR s) _ _) in *.
  destruct Hl as (H7 & H1 & Ht & Ha7 & Ha1 & Hts).
  rewrite H7, H1.
  replace (sevenMonthClaimed (lockOf s (msg_sender env)) + p7
           - sevenMonthClaimed (lockOf s (msg_sender env))
           + (oneYearClaimed (lockOf s (msg_sender env)) + p1
              - oneYearClaimed (lockOf s (msg_sender env)))) with (p7 + p1) by lia.
  pose proof (balance_move_to (self s) (msg_sender env) (p7 + p1) s ltac:(done)) as Hto.
  pose proof (balance_move_from (self s) (msg_sender env) (p7 + p1) s ltac:(done)) as Hfrom.
  unfold balanceOf in *. rewrite Hb.
  repeat split; (done || lia || tauto).
Qed.

Lemma withdraw_pays_what_it_marks_witness :
  let env := by_ BUYER AFTER_ONE_YEAR in
  let user := msg_sender env in
  let l := lockOf allocated user in
  let l' := lockOf paid_out user in
  let paid := (sevenMonthClaimed l' - sevenMonthClaimed l)
              + (oneYearClaimed l' - oneYearClaimed l) in
  paid = payout env allocated
  /\ 0 <= paid <= balanceOf allocated (self allocated)
  /\ balanceOf paid_out user = balanceOf allocated user + paid
  /\ balanceOf paid_out (self allocated) = balanceOf allocated (self allocated) - paid
  /\ (totalAmount l' = totalAmount l /\ sevenMonthAmount l' = sevenMonthAmount l
      /\ oneYearAmount l' = oneYearAmount l /\ lockTimestamp l' = lockTimestamp l)
  /\ (forall u, u ≠ user -> lockOf paid_out u = lockOf allocated u)
  /\ (tokenSold paid_out = tokenSold allocated
      /\ totalDonations paid_out = totalDonations allocated).
Proof.
  apply (withdraw_pays_what_it_marks (by_ BUYER AFTER_ONE_YEAR) allocated paid_out);
    by vm_compute.
Defined.

(** A caller whose lock is non-empty, with claimed counters within the
    tranche amounts, something to be paid, and a contract balance that
    covers it, can withdraw: the call succeeds, provided the contract's
    balance is a [uint256] and [lockTimestamp + ONE_YEAR], which the event
    computes, does not overflow. *)
Theorem withdraw_succeeds_when_vested (env : Env) (s : State) :
  let l := lockOf s (msg_sender env) in
  totalAmount l ≠ 0 ->
  claimed_within l ->
  0 < payout env s <= balanceOf s (self s) ->
  balanceOf s (self s) <= MAX_UINT256 ->
  lockTimestamp l + ONE_YEAR s <= MAX_UINT256 ->
  exists s', withdraw env s = (Ok tt, s').
Proof.
  cbv zeta. intros Htotal [Hc7 Hc1] Hpay Hbal Hstage. unfold payout in Hpay.
  pose proof (vested_unclaimed_spec (block_timestamp env) (SEVEN_MONTHS s)
                (sevenMonthAmount (lockOf s (msg_sender env)))
                (sevenMonthClaimed (lockOf s (msg_sender env)))) as H7.
  pose proof (vested_unclaimed_spec (block_timestamp env) (ONE_YEAR s)
                (oneYearAmount (lockOf s (msg_sender env)))
                (oneYearClaimed (lockOf s (msg_sender env)))) as H1.
  set (p7 := vested_unclaimed _ (SEVEN_MONTHS s) _ _) in *.
  set (p1 := vested_unclaimed _ (ONE_YEAR s) _ _) in *.
  clearbody p7 p1.
  destruct (withdraw env s) as [[[]|e] s'] eqn:E; [by eexists|exfalso].
  revert E. unfold withdraw, claim_tranche, safeTransfer, zkBalance. minv.
  all: unfold lockOf, balanceOf in *.
  all: cbn [userLockedTokens set_userLockedTokens zkBalances self
            sevenMonthAmount sevenMonthClaimed oneYearAmount oneYearClaimed
            set_sevenMonthClaimed set_oneYearClaimed lockTimestamp totalAmount] in *.
  all: rewrite ?lookup_total_insert_eq in *.
  all: cbn [userLockedTokens set_userLockedTokens zkBalances self
            sevenMonthAmount sevenMonthClaimed oneYearAmount oneYearClaimed
            set_sevenMonthClaimed set_oneYearClaimed lockTimestamp totalAmount] in *.
  all: lia.
Qed.

(** Before both [SEVEN_MONTHS] and [ONE_YEAR], [withdraw] pays nobody: it
    fails with [NoTokensToWithdraw] for a caller with an empty lock and
    with [SevenMonthReleaseNotAvailable] for any other, leaving the
    storage as it was. *)
Theorem withdraw_locked_before_marks (env : Env) (s : State) :
  block_timestamp env < SEVEN_MONTHS s ->
  block_timestamp env < ONE_YEAR s ->
  withdraw env s
  = (Revert (if decide (totalAmount (lockOf s (msg_sender env)) = 0)
             then NoTokensToWithdraw else SevenMonthReleaseNotAvailable), s).
Proof.
  intros H7 H1.
  destruct (withdraw env s) as [[[]|e] s'] eqn:E; revert E; unfold withdraw, claim_tranche;
    minv; unfold lockOf in *; try (exfalso; lia).
  all: destruct (decide _); try done; try (exfalso; lia).
Qed.

Lemma withdraw_locked_before_marks_witness :
  withdraw (by_ BUYER 2000) allocated
  = (Revert (if decide (totalAmount (lockOf allocated (msg_sender (by_ BUYER 2000))) = 0)
             then NoTokensToWithdraw else SevenMonthReleaseNotAvailable), allocated).
Proof.
  apply (withdraw_locked_before_marks (by_ BUYER 2000) allocated); by vm_compute.
Defined.

(** When both [getWithdrawableAmount] and [withdraw] succeed for the same
    caller, state and time, and the lock's timestamp is non-negative, the
    view returns at most what [withdraw] pays. *)
Theorem view_never_overstates (env : Env) (s s1 s' : State) (w : Z) :
  getWithdrawableAmount env (msg_sender env) s = (Ok w, s1) ->
  withdraw env s = (Ok tt, s') ->
  msg_sender env ≠ self s ->
  0 <= lockTimestamp (lockOf s (msg_sender env)) ->
  0 <= w <= balanceOf s' (msg_sender env) - balanceOf s (msg_sender env).
Proof.
  intros V E Hself Hts.
  apply withdraw_ok_facts in E as (_ & _ & Hp & _ & paid & stage & Hb & _ & ->).
  cbv zeta in *.
  pose proof (vested_unclaimed_spec (block_timestamp env) (SEVEN_MONTHS s)
                (sevenMonthAmount (lockOf s (msg_sender env)))
                (sevenMonthClaimed (lockOf s (msg_sender env)))) as H7.
  pose proof (vested_unclaimed_spec (block_timestamp env) (ONE_YEAR s)
                (oneYearAmount (lockOf s (msg_sender env)))
                (oneYearClaimed (lockOf s (msg_sender env)))) as H1.
  set (p7 := vested_unclaimed _ (SEVEN_MONTHS s) _ _) in *.
  set (p1 := vested_unclaimed _ (ONE_YEAR s) _ _) in *.
  clearbody p7 p1.
  pose proof (balance_move_to (self s) (msg_sender env) (p7 + p1) s ltac:(done)) as Hto.
  unfold balanceOf in *. rewrite Hb, Hto. clear Hb Hto.
  revert V. unfold getWithdrawableAmount. minv; unfold lockOf in *; lia.
Qed.

Lemma view_never_overstates_witness :
  let env := by_ BUYER (2000 + AFTER_ONE_YEAR) in
  0 <= 4 * 10 ^ 18
    <= balanceOf (after env Withdraw allocated) (msg_sender env)
       - balanceOf allocated (msg_sender env).
Proof.
  apply (view_never_overstates (by_ BUYER (2000 + AFTER_ONE_YEAR)) allocated allocated
           (after (by_ BUYER (2000 + AFTER_ONE_YEAR)) Withdraw allocated) (4 * 10 ^ 18));
    by vm_compute.
Defined.

(** [getTimeUntilRelease] of a non-zero address returns [(0, 0)] for an
    empty lock; otherwise, when the two sums do not overflow, it returns
    for each tranche the time from now to [lockTimestamp] plus the mark,
    or zero when that time is past. *)
Theorem getTimeUntilRelease_closed_form (env : Env) (user : address) (s : State) :
  user ≠ 0 ->
  let l := lockOf s user in
  let now := block_timestamp env in
  (totalAmount l = 0 -> getTimeUntilRelease env user s = (Ok (0, 0), s))
  /\ (totalAmount l ≠ 0 ->
      lockTimestamp l + SEVEN_MONTHS s <= MAX_UINT256 ->
      lockTimestamp l + ONE_YEAR s <= MAX_UINT256 ->
      getTimeUntilRelease env user s
      = (Ok (Z.max 0 (lockTimestamp l + SEVEN_MONTHS s - now),
             Z.max 0 (lockTimestamp l + ONE_YEAR s - now)), s)).
Proof.
  intros Hu. cbv zeta. split.
  - intros H0.
    destruct (getTimeUntilRelease env user s) as [[[a b]|e] s'] eqn:E; revert E;
      unfold getTimeUntilRelease; minv; unfold lockOf in *; (done || lia).
  - intros H0 H7 H1.
    destruct (getTimeUntilRelease env user s) as [[[a b]|e] s'] eqn:E; revert E;
      unfold getTimeUntilRelease; minv; unfold lockOf in *;
      try (exfalso; (done || lia)); repeat f_equal; lia.
Qed.

Lemma getTimeUntilRelease_closed_form_witness :
  let env := by_ OWNER 3000 in
  let l := lockOf allocated BUYER in
  let now := block_timestamp env in
  (totalAmount l = 0 -> getTimeUntilRelease env BUYER allocated = (Ok (0, 0), allocated))
  /\ (totalAmount l ≠ 0 ->
      lockTimestamp l + SEVEN_MONTHS allocated <= MAX_UINT256 ->
      lockTimestamp l + ONE_YEAR allocated <= MAX_UINT256 ->
      getTimeUntilRelease env BUYER allocated
      = (Ok (Z.max 0 (lockTimestamp l + SEVEN_MONTHS allocated - now),
             Z.max 0 (lockTimestamp l + ONE_YEAR allocated - now)), allocated)).
Proof.
  apply (getTimeUntilRelease_closed_form (by_ OWNER 3000) BUYER allocated).
  by vm_compute.
Defined.

(** After a successful [setTimePeriods], [getTimePeriods] returns the two
    values just set, whatever their order; no lock is touched and
    [TimePeriodsSet] is logged with the same values. *)
Theorem setTimePeriods_getTimePeriods (env : Env) (sevenMonthsTime_ oneYearTime_ : Z)
    (s s' : State) :
  setTimePeriods env sevenMonthsTime_ oneYearTime_ s = (Ok tt, s') ->
  getTimePeriods s' = (Ok (sevenMonthsTime_, oneYearTime_), s')
  /\ userLockedTokens s' = userLockedTokens s
  /\ events s' = TimePeriodsSet sevenMonthsTime_ oneYearTime_ :: events s.
Proof.
  unfold setTimePeriods. minv. repeat split.
Qed.

Lemma setTimePeriods_getTimePeriods_witness :
  let s' := after (by_ OWNER 2000) (SetTimePeriods 20 10) funded in
  getTimePeriods s' = (Ok (20, 10), s')
  /\ userLockedTokens s' = userLockedTokens funded
  /\ events s' = TimePeriodsSet 20 10 :: events funded.
Proof.
  apply (setTimePeriods_getTimePeriods (by_ OWNER 2000) 20 10 funded
           (after (by_ OWNER 2000) (SetTimePeriods 20 10) funded)).
  by vm_compute.
Defined.

(** From deployment on, through any sequence of well-formed transactions
    without [UpdateAllocations], the claimed counter of each tranche of
    every lock stays between zero and the tranche's amount. *)
Theorem claimed_never_exceeds_allocation (txs : list (Env * Call))
    (this : address) (balances allowances : gmap address Z) (user : address) :
  forallb wf_tx txs = true ->
  forallb (fun tx => negb (reallocates tx.2)) txs = true ->
  claimed_within (lockOf (run txs (deployed this balances allowances)) user).
Proof.
  intros Hwf Hre. apply run_claimed; [done|done|apply locks_split_deployed|].
  intros a. unfold lockOf, deployed. cbn [userLockedTokens].
  rewrite lookup_total_empty. apply claimed_within_zero.
Qed.

Lemma claimed_never_exceeds_allocation_witness :
  claimed_within
    (lockOf
       (run [(by_ OWNER T0, Initialize OWNER 1000 TOKEN CHARITY);
             (by_ OWNER (T0 + 1), InjectSupply (10 ^ 27));
             (by_ OWNER 2000, ReleaseZKTC 4000 BUYER 0);
             (by_ BUYER AFTER_ONE_YEAR, Withdraw)]
          (deployed THIS {[OWNER := 10 ^ 30]} {[OWNER := 10 ^ 30]}))
       BUYER).
Proof.
  apply (claimed_never_exceeds_allocation
           [(by_ OWNER T0, Initialize OWNER 1000 TOKEN CHARITY);
            (by_ OWNER (T0 + 1), InjectSupply (10 ^ 27));
            (by_ OWNER 2000, ReleaseZKTC 4000 BUYER 0);
            (by_ BUYER AFTER_ONE_YEAR, Withdraw)]
           THIS {[OWNER := 10 ^ 30]} {[OWNER := 10 ^ 30]} BUYER);
    by vm_compute.
Defined.

(** * Allocations and the counters of the sale *)

(** After a successful [releaseZKTC], [getUserLockedTokens] of the buyer
    returns the buyer's former lock merged with the purchase tokens,
    priced before the call — a lock that was non-empty keeps its
    [lockTimestamp] — or the former lock itself when the purchase rounds
    to no tokens; the locks of all other users are unchanged. *)
Theorem releaseZKTC_locks (env : Env) (amount : Z) (buyer : address)
    (donationAmount : Z) (s s' : State) :
  releaseZKTC env amount buyer donationAmount s = (Ok tt, s') ->
  let tokensToBuy := amount * SCALE / tokenPrice s in
  getUserLockedTokens buyer s'
  = (Ok (if decide (tokensToBuy > 0) then merged env tokensToBuy (lockOf s buyer)
         else lockOf s buyer), s')
  /\ (forall u, u ≠ buyer -> lockOf s' u = lockOf s u).
Proof.
  intros E. cbv zeta. revert E. unfold releaseZKTC. minv.
  all: match goal with
       | H : reprice_loop _ _ = (Ok _, _) |- _ =>
           apply reprice_loop_ok in H as (Hr & _);
           apply repriced_locks in Hr;
           cbn [userLockedTokens set_totalUsdGathered set_tokenSold] in Hr
       end.
  all: unfold getUserLockedTokens, bind, revert_if, read_lock, gets, ret, lockOf, merged in *.
  all: cbn [userLockedTokens set_events set_userLockedTokens set_totalDonations fst snd].
  all: destruct (decide (buyer = 0)) as [|_]; [done|].
  all: rewrite ?Hr in *.
  all: repeat match goal with
         | |- context [decide (?P)] => destruct (decide P); try lia
         end.
  all: cbn [userLockedTokens set_events set_userLockedTokens set_totalDonations fst snd].
  all: rewrite ?lookup_total_insert_eq, ?Hr.
  all: (split; [reflexivity|]).
  all: intros u Hu; rewrite ?Hr; try reflexivity.
  all: other_lock u; by rewrite ?Hr.
Qed.

Lemma releaseZKTC_locks_witness :
  let tokensToBuy := 4000 * SCALE / tokenPrice funded in
  getUserLockedTokens BUYER allocated
  = (Ok (if decide (tokensToBuy > 0)
         then merged (by_ OWNER 2000) tokensToBuy (lockOf funded BUYER)
         else lockOf funded BUYER), allocated)
  /\ (forall u, u ≠ BUYER -> lockOf allocated u = lockOf funded u).
Proof.
  apply (releaseZKTC_locks (by_ OWNER 2000) 4000 BUYER 0 funded allocated).
  by vm_compute.
Defined.

(** A successful [releaseZKTC] raises the price by a whole number of steps
    of 1000, at most one per loop iteration of the gas budget, and ends
    with the gathered amount, in millions, below the threshold; when the
    gathered amount with the new payment is below the threshold already,
    price, threshold and threshold step stay as they were. *)
Theorem releaseZKTC_price_steps (env : Env) (amount : Z) (buyer : address)
    (donationAmount : Z) (s s' : State) :
  releaseZKTC env amount buyer donationAmount s = (Ok tt, s') ->
  (exists k : nat,
      (k <= gas env)%nat /\ tokenPrice s' = tokenPrice s + 1000 * Z.of_nat k)
  /\ totalUsdGathered s' / 1000000 < threshold s'
  /\ ((totalUsdGathered s + (amount + donationAmount)) / 1000000 < threshold s ->
      tokenPrice s' = tokenPrice s /\ threshold s' = threshold s
      /\ incrementThreshold s' = incrementThreshold s).
Proof.
  unfold releaseZKTC. minv.
  all: match goal with
       | H : reprice_loop _ _ = (Ok _, _) |- _ =>
           pose proof (reprice_loop_steps _ _ _ _ H) as (k & Hk & Hp & Hsame);
           apply reprice_loop_ok in H as (_ & _ & _ & Hguard)
       end.
  all: cbn [tokenPrice threshold totalUsdGathered set_totalUsdGathered set_tokenSold]
         in Hp, Hsame.
  all: cbn [tokenPrice threshold incrementThreshold totalUsdGathered set_events
            set_userLockedTokens set_totalDonations].
  all: split; [by exists k|]; split; [exact Hguard|].
  all: intros Hunder; rewrite (Hsame Hunder); repeat split.
Qed.

Lemma releaseZKTC_price_steps_witness :
  let env := by_ OWNER 2000 in
  let s' := after env (ReleaseZKTC (137500 * 1000000) BUYER 0) funded in
  (exists k : nat,
      (k <= gas env)%nat /\ tokenPrice s' = tokenPrice funded + 1000 * Z.of_nat k)
  /\ totalUsdGathered s' / 1000000 < threshold s'
  /\ ((totalUsdGathered funded + (137500 * 1000000 + 0)) / 1000000 < threshold funded ->
      tokenPrice s' = tokenPrice funded /\ threshold s' = threshold funded
      /\ incrementThreshold s' = incrementThreshold funded).
Proof.
  apply (releaseZKTC_price_steps (by_ OWNER 2000) (137500 * 1000000) BUYER 0 funded
           (after (by_ OWNER 2000) (ReleaseZKTC (137500 * 1000000) BUYER 0) funded)).
  by vm_compute.
Defined.

(** Whenever [releaseZKTC] succeeds on non-negative amounts, in a state
    whose price and [tokenSold] are non-negative, [getQuote] for the same
    amounts in the state before the call returns exactly the purchase
    tokens and donation tokens the call accounts for: the quote is not
    clamped. *)
Theorem quote_matches_release (env : Env) (amount : Z) (buyer : address)
    (donationAmount : Z) (s s' : State) :
  releaseZKTC env amount buyer donationAmount s = (Ok tt, s') ->
  0 <= tokenPrice s -> 0 <= tokenSold s ->
  0 <= amount -> 0 <= donationAmount ->
  getQuote amount donationAmount s
  = (Ok (amount * SCALE / tokenPrice s, donationAmount * SCALE / tokenPrice s), s).
Proof.
  intros E Hp Hsold Ha Hd.
  assert (Hfacts : amount * SCALE <= MAX_UINT256 /\ donationAmount * SCALE <= MAX_UINT256
                   /\ tokenPrice s ≠ 0 /\ ¬ (amount = 0 ∧ donationAmount = 0)
                   /\ totalDonations s <= balanceOf s (self s)
                   /\ amount * SCALE / tokenPrice s + donationAmount * SCALE / tokenPrice s
                      <= balanceOf s (self s) - totalDonations s - tokenSold s
                   /\ amount * SCALE / tokenPrice s + donationAmount * SCALE / tokenPrice s
                      <= MAX_UINT256).
  { revert E. unfold releaseZKTC, getAvailableForWithdrawal, getTotalLockedTokens,
      zkBalance, balanceOf.
    minv. all: unfold balanceOf in *. all: repeat split; (done || lia). }
  clear E. destruct Hfacts as (Hma & Hmd & Hp0 & Hnz & Hbal & Hroom & Hfit).
  pose proof (scaled_div_bounds amount (tokenPrice s) Ha ltac:(lia)) as Hpu.
  pose proof (scaled_div_bounds donationAmount (tokenPrice s) Hd ltac:(lia)) as Hdo.
  assert (Hz : amount = 0 -> amount * SCALE / tokenPrice s = 0).
  { intros ->. by rewrite Z.mul_0_l, Zdiv_0_l. }
  destruct (getQuote amount donationAmount s) as [[[p q]|e] s1] eqn:E;
    revert E; unfold getQuote, zkBalance; minv; unfold balanceOf in *;
    set (purchase := amount * SCALE / tokenPrice s) in *;
    set (donation := donationAmount * SCALE / tokenPrice s) in *;
    clearbody purchase donation;
    try (exfalso; lia); try reflexivity;
    repeat f_equal; lia.
Qed.

Lemma quote_matches_release_witness :
  getQuote 4000 0 funded
  = (Ok (4000 * SCALE / tokenPrice funded, 0 * SCALE / tokenPrice funded), funded).
Proof.
  apply (quote_matches_release (by_ OWNER 2000) 4000 BUYER 0 funded allocated);
    by vm_compute.
Defined.

(** A successful [UpdateAllocations] replaces the amounts of the user's
    lock by [amount * 10 ^ 18] split in two and restarts its timestamp,
    and keeps the two claimed counters; it changes no other lock, does not
    count the allocation in [tokenSold], and moves no tokens. *)
Theorem UpdateAllocations_effect (env : Env) (user : address) (amount : Z)
    (s s' : State) :
  UpdateAllocations env user amount s = (Ok tt, s') ->
  lockOf s' user
  = mkLockedTokens (amount * SCALE) (amount * SCALE / 2)
      (amount * SCALE - amount * SCALE / 2)
      (sevenMonthClaimed (lockOf s user)) (oneYearClaimed (lockOf s user))
      (block_timestamp env)
  /\ (forall u, u ≠ user -> lockOf s' u = lockOf s u)
  /\ tokenSold s' = tokenSold s
  /\ zkBalances s' = zkBalances s.
Proof.
  unfold UpdateAllocations. minv; unfold lockOf in *.
  all: cbn [userLockedTokens set_events set_userLockedTokens tokenSold zkBalances] in *.
  all: rewrite ?lookup_total_insert_eq in *.
  all: cbn [totalAmount set_totalAmount] in *; try lia.
  all: repeat split.
  intros u Hu. by rewrite !lookup_total_insert_ne by congruence.
Qed.

Lemma UpdateAllocations_effect_witness :
  let env := by_ OWNER 3000 in
  let s' := after env (UpdateAllocations_ BUYER 1) allocated in
  lockOf s' BUYER
  = mkLockedTokens (1 * SCALE) (1 * SCALE / 2) (1 * SCALE - 1 * SCALE / 2)
      (sevenMonthClaimed (lockOf allocated BUYER)) (oneYearClaimed (lockOf allocated BUYER))
      (block_timestamp env)
  /\ (forall u, u ≠ BUYER -> lockOf s' u = lockOf allocated u)
  /\ tokenSold s' = tokenSold allocated
  /\ zkBalances s' = zkBalances allocated.
Proof.
  apply (UpdateAllocations_effect (by_ OWNER 3000) BUYER 1 allocated
           (after (by_ OWNER 3000) (UpdateAllocations_ BUYER 1) allocated)).
  by vm_compute.
Defined.

(** From a reachable state no well-formed call lowers [tokenSold], and
    only [releaseZKTC] changes it: tokens paid out by [withdraw] stay
    counted as sold. *)
Theorem tokenSold_never_lowered (env : Env) (c : Call) (s : State) :
  reachable s ->
  wf_tx (env, c) = true ->
  tokenSold s <= tokenSold (after env c s)
  /\ ((forall a b d, c ≠ ReleaseZKTC a b d) -> tokenSold (after env c s) = tokenSold s).
Proof.
  intros Hs Hwf. apply reachable_locks_split in Hs as [Hprice _].
  apply wf_tx_spec in Hwf as [_ Hwf].
  unfold after, call.
  destruct (exec env c s) as [[u|e] s'] eqn:E; cbn [snd]; [|split; [lia|done]].
  revert E. destruct c; wf_ranges Hwf; cbn [exec]; all_calls; minv;
    try match goal with
        | H : reprice_loop _ _ = (Ok _, _) |- _ =>
            apply reprice_loop_ok in H as (Hr & _);
            apply repriced_counters in Hr as (Hsold & _);
            cbn [tokenSold set_totalUsdGathered set_tokenSold] in Hsold
        end;
    cbn; rewrite ?Hsold.
  all: try (split; [lia|reflexivity]).
  all: split; [|intros Hne; exfalso; by eapply Hne].
  all: match goal with
       | |- _ <= _ + (?a * SCALE / ?p + ?d * SCALE / ?p) =>
           assert (0 <= a * SCALE / p) by
             (apply Z.div_pos; [apply Z.mul_nonneg_nonneg; (lia || done) | lia]);
           assert (0 <= d * SCALE / p) by
             (apply Z.div_pos; [apply Z.mul_nonneg_nonneg; (lia || done) | lia]);
           lia
       end.
Qed.

Lemma tokenSold_never_lowered_witness :
  let env := by_ OWNER 2000 in
  let c := ReleaseZKTC 4000 BUYER 0 in
  tokenSold funded <= tokenSold (after env c funded)
  /\ ((forall a b d, c ≠ ReleaseZKTC a b d) ->
      tokenSold (after env c funded) = tokenSold funded).
Proof.
  apply (tokenSold_never_lowered (by_ OWNER 2000) (ReleaseZKTC 4000 BUYER 0) funded).
  - exact reachable_funded.
  - by vm_compute.
Defined.

(** In a state where the held balance is less than [totalDonations] plus
    [tokenSold], [getAvailableForWithdrawal] fails with an arithmetic
    panic, and every [releaseZKTC], [withdrawParticularZKTC] and
    [withdrawAllZKTC] fails, whoever sends it and whatever its arguments. *)
Theorem oversold_blocks_sale (env : Env) (s : State) :
  balanceOf s (self s) < totalDonations s + tokenSold s ->
  getAvailableForWithdrawal s = (Revert (Panic ARITHMETIC), s)
  /\ (forall amount buyer donationAmount,
        exists e, call env (ReleaseZKTC amount buyer donationAmount) s = (Revert e, s))
  /\ (forall amount,
        exists e, call env (WithdrawParticularZKTC amount) s = (Revert e, s))
  /\ (exists e, call env WithdrawAllZKTC s = (Revert e, s)).
Proof.
  intros Hover. unfold balanceOf in Hover.
  assert (Hview : getAvailableForWithdrawal s = (Revert (Panic ARITHMETIC), s)).
  { destruct (getAvailableForWithdrawal s) as [[v|e] s'] eqn:E; revert E;
      unfold getAvailableForWithdrawal, getTotalLockedTokens, zkBalance; minv;
      unfold balanceOf in *; (reflexivity || (exfalso; lia)). }
  split; [exact Hview|].
  repeat split; intros; unfold call; cbn [exec].
  - destruct (releaseZKTC env amount buyer donationAmount s) as [[[]|e] s'] eqn:E;
      [exfalso|by eexists].
    revert E. unfold releaseZKTC, getAvailableForWithdrawal, getTotalLockedTokens, zkBalance.
    minv; unfold balanceOf in *; lia.
  - destruct (withdrawParticularZKTC env amount s) as [[[]|e] s'] eqn:E;
      [exfalso|by eexists].
    revert E.
    unfold withdrawParticularZKTC, getAvailableForWithdrawal, getTotalLockedTokens, zkBalance.
    minv; unfold balanceOf in *; lia.
  - destruct (withdrawAllZKTC env s) as [[[]|e] s'] eqn:E; [exfalso|by eexists].
    revert E.
    unfold withdrawAllZKTC, getAvailableForWithdrawal, getTotalLockedTokens, zkBalance.
    minv; unfold balanceOf in *; lia.
Qed.

Lemma oversold_blocks_sale_witness :
  let env := by_ OWNER (AFTER_SEVEN_MONTHS + 1) in
  getAvailableForWithdrawal after_claim = (Revert (Panic ARITHMETIC), after_claim)
  /\ (forall amount buyer donationAmount,
        exists e, call env (ReleaseZKTC amount buyer donationAmount) after_claim
                  = (Revert e, after_claim))
  /\ (forall amount,
        exists e, call env (WithdrawParticularZKTC amount) after_claim
                  = (Revert e, after_claim))
  /\ (exists e, call env WithdrawAllZKTC after_claim = (Revert e, after_claim)).
Proof.
  apply (oversold_blocks_sale (by_ OWNER (AFTER_SEVEN_MONTHS + 1)) after_claim).
  by vm_compute.
Defined.

(** In every reachable state the price, the threshold and its step, the
    three counters of the sale, the three times and all six fields of
    every lock are [uint256] values: the checked arithmetic of the
    contract never lets one of them leave the range. *)
Theorem reachable_in_range (s : State) : reachable s -> in_range s.
Proof.
  induction 1 as [|env c s Hs IH Hwf]; [apply in_range_deployed|].
  unfold after, call. destruct (exec env c s) as [[u|e] s'] eqn:E; cbn [snd]; [|done].
  by eapply exec_ok_range.
Qed.

Lemma reachable_in_range_witness : in_range allocated.
Proof. apply (reachable_in_range allocated). exact reachable_allocated. Defined.

Lemma withdraw_succeeds_when_vested_witness :
  exists s', withdraw (by_ BUYER AFTER_ONE_YEAR) allocated = (Ok tt, s').
Proof.
  apply (withdraw_succeeds_when_vested (by_ BUYER AFTER_ONE_YEAR) allocated);
    by vm_compute.
Defined.

(** * Token movements *)

(** Only [injectSupply], [DonateToZCW], [withdraw],
    [withdrawParticularZKTC] and [withdrawAllZKTC] change a token balance
    or an allowance; every other call, [releaseZKTC] and
    [UpdateAllocations] included, leaves the token ledger as it was. *)
Theorem tokens_move_only_by_transfers (env : Env) (c : Call) (s : State) :
  moves_tokens c = false ->
  zkBalances (after env c s) = zkBalances s
  /\ zkAllowance (after env c s) = zkAllowance s.
Proof.
  intros Hc. unfold after, call.
  destruct (exec env c s) as [[u|e] s'] eqn:E; cbn [snd]; [|done].
  revert E. destruct c; try discriminate Hc; cbn [exec]; all_calls; minv;
    try match goal with
        | H : reprice_loop _ _ = (Ok _, _) |- _ =>
            apply reprice_loop_ok in H as (Hr & _);
            apply repriced_ledger in Hr as (Hb & Ha & _);
            cbn [zkBalances zkAllowance set_totalUsdGathered set_tokenSold] in Hb, Ha
        end;
    cbn; rewrite ?Hb, ?Ha; split; reflexivity.
Qed.

Lemma tokens_move_only_by_transfers_witness :
  let env := by_ OWNER 2000 in
  zkBalances (after env (ReleaseZKTC 4000 BUYER 0) funded) = zkBalances funded
  /\ zkAllowance (after env (ReleaseZKTC 4000 BUYER 0) funded) = zkAllowance funded.
Proof.
  apply (tokens_move_only_by_transfers (by_ OWNER 2000) (ReleaseZKTC 4000 BUYER 0) funded).
  reflexivity.
Defined.

(** A successful [injectSupply] was sent by the owner with a non-zero
    amount covered by the owner's balance and allowance; it moves exactly
    that amount from the owner to the contract, changes no counter of the
    sale and no lock, and logs the contract's new balance. *)
Theorem injectSupply_effect (env : Env) (amount : Z) (s s' : State) :
  injectSupply env amount s = (Ok tt, s') ->
  msg_sender env ≠ self s ->
  msg_sender env = owner s
  /\ amount ≠ 0
  /\ amount <= balanceOf s (msg_sender env)
  /\ amount <= zkAllowance s !!! msg_sender env
  /\ balanceOf s' (self s) = balanceOf s (self s) + amount
  /\ balanceOf s' (msg_sender env) = balanceOf s (msg_sender env) - amount
  /\ (tokenSold s' = tokenSold s /\ totalDonations s' = totalDonations s
      /\ userLockedTokens s' = userLockedTokens s)
  /\ events s' = TokensInjected amount (balanceOf s (self s) + amount) :: events s.
Proof.
  intros E Hne. revert E. unfold injectSupply. minv.
  unfold balanceOf in *. cbn [zkBalances set_events set_zkBalances set_zkAllowance tokenSold totalDonations userLockedTokens events self].
  assert (Hne' : self s ≠ msg_sender env) by congruence.
  rewrite !lookup_total_insert_eq.
  rewrite !(lookup_total_insert_ne _ (self s) (msg_sender env)) by exact Hne'.
  rewrite !(lookup_total_insert_ne _ (msg_sender env) (self s)) by exact Hne.
  rewrite ?lookup_total_insert_eq.
  repeat split; try reflexivity; try assumption; try lia.
Qed.

Lemma injectSupply_effect_witness :
  let env := by_ OWNER (T0 + 1) in
  msg_sender env = owner opened
  /\ 10 ^ 27 ≠ 0
  /\ 10 ^ 27 <= balanceOf opened (msg_sender env)
  /\ 10 ^ 27 <= zkAllowance opened !!! msg_sender env
  /\ balanceOf funded (self opened) = balanceOf opened (self opened) + 10 ^ 27
  /\ balanceOf funded (msg_sender env) = balanceOf opened (msg_sender env) - 10 ^ 27
  /\ (tokenSold funded = tokenSold opened /\ totalDonations funded = totalDonations opened
      /\ userLockedTokens funded = userLockedTokens opened)
  /\ events funded
     = TokensInjected (10 ^ 27) (balanceOf opened (self opened) + 10 ^ 27) :: events opened.
Proof.
  apply (injectSupply_effect (by_ OWNER (T0 + 1)) (10 ^ 27) opened funded);
    by vm_compute.
Defined.

(** A successful [withdrawParticularZKTC] was sent by the owner at or
    after [DCO_END_TIME] with a non-zero amount of at most half the
    [uint256] range and at most the balance less [totalDonations] less
    [tokenSold]; it moves exactly that amount to the owner, so the
    contract still holds [totalDonations + tokenSold] afterwards. *)
Theorem withdrawParticularZKTC_pays_amount (env : Env) (amount : Z) (s s' : State) :
  withdrawParticularZKTC env amount s = (Ok tt, s') ->
  msg_sender env ≠ self s ->
  msg_sender env = owner s
  /\ DCO_END_TIME s <= block_timestamp env
  /\ amount ≠ 0
  /\ amount <= MAX_UINT256 / 2
  /\ amount <= balanceOf s (self s) - totalDonations s - tokenSold s
  /\ balanceOf s' (msg_sender env) = balanceOf s (msg_sender env) + amount
  /\ balanceOf s' (self s) = balanceOf s (self s) - amount
  /\ totalDonations s' + tokenSold s' <= balanceOf s' (self s)
  /\ events s' = TokensWithdrawn (msg_sender env) amount :: events s.
Proof.
  intros E Hne. revert E. unfold withdrawParticularZKTC. minv.
  pose proof (balance_move_to (self s) (msg_sender env) amount s ltac:(done)) as Hto.
  pose proof (balance_move_from (self s) (msg_sender env) amount s ltac:(done)) as Hfrom.
  unfold move_tokens, balanceOf in *. simpl in *.
  repeat split; (done || lia).
Qed.

Lemma withdrawParticularZKTC_pays_amount_witness :
  let env := by_ OWNER (T0 + 101 * days) in
  let s' := after env (WithdrawParticularZKTC 1000) allocated in
  msg_sender env = owner allocated
  /\ DCO_END_TIME allocated <= block_timestamp env
  /\ 1000 ≠ 0
  /\ 1000 <= MAX_UINT256 / 2
  /\ 1000 <= balanceOf allocated (self allocated) - totalDonations allocated
             - tokenSold allocated
  /\ balanceOf s' (msg_sender env) = balanceOf allocated (msg_sender env) + 1000
  /\ balanceOf s' (self allocated) = balanceOf allocated (self allocated) - 1000
  /\ totalDonations s' + tokenSold s' <= balanceOf s' (self allocated)
  /\ events s' = TokensWithdrawn (msg_sender env) 1000 :: events allocated.
Proof.
  apply (withdrawParticularZKTC_pays_amount (by_ OWNER (T0 + 101 * days)) 1000 allocated
           (after (by_ OWNER (T0 + 101 * days)) (WithdrawParticularZKTC 1000) allocated));
    by vm_compute.
Defined.

(** Right after a successful [DonateToZCW], a second one by any releaser
    fails with [NoDonationsMade]: the donations are paid out once. *)
Theorem DonateToZCW_twice (env env' : Env) (s s' : State) :
  DonateToZCW env s = (Ok tt, s') ->
  msg_sender env' ∈ releasers s ->
  DonateToZCW env' s' = (Revert NoDonationsMade, s').
Proof.
  intros E Hr. revert E. unfold DonateToZCW at 1. minv.
  match goal with
  | |- DonateToZCW _ ?st = _ =>
      destruct (DonateToZCW env' st) as [[[]|e] s2] eqn:E2; revert E2
  end; unfold DonateToZCW; minv; simpl in *; try done.
Qed.

Lemma DonateToZCW_twice_witness :
  let s' := after (by_ OWNER 3000) DonateToZCW_ with_donations in
  DonateToZCW (by_ OWNER 3001) s' = (Revert NoDonationsMade, s').
Proof.
  apply (DonateToZCW_twice (by_ OWNER 3000) (by_ OWNER 3001) with_donations
           (after (by_ OWNER 3000) DonateToZCW_ with_donations));
    by vm_compute.
Defined.

(** After [updateZCW], the next successful [DonateToZCW] pays all of
    [totalDonations], those gathered before the change too, to the new
    address, out of the contract's balance, and changes no other
    balance. *)
Theorem updateZCW_redirects_donations (env env' : Env) (newZCW : address)
    (s s1 s2 : State) :
  updateZCW env newZCW s = (Ok tt, s1) ->
  DonateToZCW env' s1 = (Ok tt, s2) ->
  newZCW ≠ self s ->
  balanceOf s2 newZCW = balanceOf s newZCW + totalDonations s
  /\ balanceOf s2 (self s) = balanceOf s (self s) - totalDonations s
  /\ (forall a, a ≠ newZCW -> a ≠ self s -> balanceOf s2 a = balanceOf s a)
  /\ totalDonations s2 = 0.
Proof.
  intros E1 E2 Hne. revert E1. unfold updateZCW. minv.
  revert E2. unfold DonateToZCW, safeTransfer, zkBalance. minv.
  unfold balanceOf, move_tokens.
  cbn [zkBalances set_zkBalances set_ZCW set_events set_totalDonations totalDonations self].
  assert (Hne' : self s ≠ newZCW) by congruence.
  rewrite lookup_total_insert_eq.
  rewrite !(lookup_total_insert_ne _ (self s) newZCW) by exact Hne'.
  rewrite (lookup_total_insert_ne _ newZCW (self s)) by exact Hne.
  rewrite lookup_total_insert_eq.
  repeat split; try reflexivity.
  intros a Ha1 Ha2.
  rewrite !lookup_total_insert_ne by congruence. reflexivity.
Qed.

Lemma updateZCW_redirects_donations_witness :
  let s1 := after (by_ OWNER 3000) (UpdateZCW BUYER) with_donations in
  let s2 := after (by_ OWNER 3001) DonateToZCW_ s1 in
  balanceOf s2 BUYER = balanceOf with_donations BUYER + totalDonations with_donations
  /\ balanceOf s2 (self with_donations)
     = balanceOf with_donations (self with_donations) - totalDonations with_donations
  /\ (forall a, a ≠ BUYER -> a ≠ self with_donations ->
        balanceOf s2 a = balanceOf with_donations a)
  /\ totalDonations s2 = 0.
Proof.
  apply (updateZCW_redirects_donations (by_ OWNER 3000) (by_ OWNER 3001) BUYER
           with_donations
           (after (by_ OWNER 3000) (UpdateZCW BUYER) with_donations)
           (after (by_ OWNER 3001) DonateToZCW_
              (after (by_ OWNER 3000) (UpdateZCW BUYER) with_donations)));
    by vm_compute.
Defined.

(** [setDCOEndTime] by the owner always succeeds and stores the new time;
    the event it logs carries the new time in both fields, the old time
    being read after the assignment. *)
Theorem setDCOEndTime_reports_new_time_twice (env : Env) (newDCOEndTime : Z) (s : State) :
  msg_sender env = owner s ->
  exists s',
    setDCOEndTime env newDCOEndTime s = (Ok tt, s')
    /\ DCO_END_TIME s' = newDCOEndTime
    /\ events s' = DCOEndTimeUpdated newDCOEndTime newDCOEndTime :: events s.
Proof.
  intros Ho.
  destruct (setDCOEndTime env newDCOEndTime s) as [[[]|e] s'] eqn:E; revert E;
    unfold setDCOEndTime; minv; [|done].
  by eexists.
Qed.

Lemma setDCOEndTime_reports_new_time_twice_witness :
  exists s',
    setDCOEndTime (by_ OWNER 2000) 5000 funded = (Ok tt, s')
    /\ DCO_END_TIME s' = 5000
    /\ events s' = DCOEndTimeUpdated 5000 5000 :: events funded.
Proof.
  apply (setDCOEndTime_reports_new_time_twice (by_ OWNER 2000) 5000 funded).
  reflexivity.
Defined.
